(** * Retrieval-request orchestrator of the Glacier re-freezer

    A shallow embedding of the Lambda handler that requests the retrieval
    of one inventory partition ([calculateNumberOfChunks], the [parseInt]
    coercion of the rows, the partition cursor, the Athena poll loop, the
    CSV result reader and the row loop of [handler]), followed by the
    properties its specification states.

    Asynchronous calls are functions from the state of the world to an
    outcome and a new state; the services (Glacier, DynamoDB, Athena, S3,
    the clock, the file-name parser) are inputs, gathered in [Env]. *)

From Stdlib Require Import ZArith Lia Bool String Ascii List.
From Stdlib Require Import DecimalString DecimalN Sorted.
From stdpp Require Import base gmap strings list fin_maps.

Open Scope string_scope.
Open Scope Z_scope.

(** ** JavaScript numbers

    Every number the handler manipulates is either the result of [parseInt]
    (an integer or [NaN]) or is computed from such values with [/],
    [Math.floor], [%], [++] and [+ 1].  The embedding keeps integers exact
    (the source's doubles are exact on them up to 2^53) and keeps [NaN]. *)

Inductive num : Type :=
| Num (z : Z)
| NaN.

#[global] Instance num_eq_dec : EqDecision num.
Proof. solve_decision. Defined.

(** [a <= b]: false as soon as one side is [NaN]. *)
Definition num_le (a b : num) : bool :=
  match a, b with
  | Num x, Num y => x <=? y
  | _, _ => false
  end.

(** [a + 1] and [a++]. *)
Definition num_succ (a : num) : num :=
  match a with
  | Num x => Num (x + 1)
  | NaN => NaN
  end.

(** [Math.floor(a / c)] for a non-zero integer constant [c] that is a power
    of two: the double division is exact, so the floor is that of the exact
    quotient. *)
Definition num_floor_div (a : num) (c : Z) : num :=
  match a with
  | Num x => Num (x / c)
  | NaN => NaN
  end.

(** [a % c]: the remainder takes the sign of the dividend. *)
Definition num_rem (a : num) (c : Z) : num :=
  match a with
  | Num x => Num (Z.rem x c)
  | NaN => NaN
  end.

(** [a !== 0]; [NaN !== 0] is true. *)
Definition num_nonzero (a : num) : bool :=
  match a with
  | Num x => negb (x =? 0)
  | NaN => true
  end.

(** ** Chunk planner *)

(** [const CHUNK_SIZE = 4 * 1024 * 1024 * 1024] *)
Definition CHUNK_SIZE : Z := 4 * 1024 * 1024 * 1024.

Definition calculateNumberOfChunks (sizeInBytes : num) : num :=
  let numberOfChunks := num_floor_div sizeInBytes CHUNK_SIZE in
  if num_nonzero (num_rem sizeInBytes CHUNK_SIZE)
  then num_succ numberOfChunks
  else numberOfChunks.

(** ** [parseInt] and [Number.prototype.toString]

    [parseInt(string)] without a radix: leading white space is skipped, one
    sign is read, a [0x]/[0X] prefix selects radix 16 (otherwise radix 10),
    and the longest prefix of digits of that radix is the value; no digit at
    all gives [NaN].  Characters are the ASCII ones (the white space of the
    source also has the Unicode spaces) and the value is the exact integer
    (the source rounds it to a double above 2^53). *)

Definition is_whitespace (c : ascii) : bool :=
  let n := N_of_ascii c in
  ((9 <=? n) && (n <=? 13))%N || (n =? 32)%N.

Fixpoint strip_whitespace (s : string) : string :=
  match s with
  | String c s' => if is_whitespace c then strip_whitespace s' else s
  | EmptyString => EmptyString
  end.

Definition split_sign (s : string) : Z * string :=
  match s with
  | String "-" s' => (-1, s')
  | String "+" s' => (1, s')
  | _ => (1, s)
  end.

Definition split_radix (s : string) : Z * string :=
  match s with
  | String "0" (String "x" s') => (16, s')
  | String "0" (String "X" s') => (16, s')
  | _ => (10, s)
  end.

Definition digit_value (c : ascii) : option Z :=
  let n := Z.of_N (N_of_ascii c) in
  if (48 <=? n) && (n <=? 57) then Some (n - 48)
  else if (97 <=? n) && (n <=? 122) then Some (n - 87)
  else if (65 <=? n) && (n <=? 90) then Some (n - 55)
  else None.

Definition radix_digit (R : Z) (c : ascii) : option Z :=
  match digit_value c with
  | Some d => if d <? R then Some d else None
  | None => None
  end.

(** The value of the longest digit prefix; [acc] is [None] until a digit has
    been read. *)
Fixpoint parse_digits (R : Z) (s : string) (acc : option Z) : option Z :=
  match s with
  | String c s' =>
      match radix_digit R c with
      | Some d => parse_digits R s' (Some (R * from_option id 0 acc + d))
      | None => acc
      end
  | EmptyString => acc
  end.

Definition parseInt (input : string) : num :=
  let '(sign, s1) := split_sign (strip_whitespace input) in
  let '(R, s2) := split_radix s1 in
  match parse_digits R s2 None with
  | Some n => Num (sign * n)
  | None => NaN
  end.

(** [n.toString()] for an integer (plain decimal digits, below 1e21) or
    [NaN]. *)
Definition Number_toString (n : num) : string :=
  match n with
  | Num z =>
      if z <? 0
      then String "-" (NilEmpty.string_of_uint (N.to_uint (Z.abs_N z)))
      else NilEmpty.string_of_uint (N.to_uint (Z.abs_N z))
  | NaN => "NaN"
  end.

(** ** Inventory rows

    A row as [csv()] delivers it (every column a string), and the same row
    after the ['data'] listener of [readResultsCSV] has overwritten [size]
    and [row_num] with their [parseInt]. *)

Record RawRow : Type := {
  raw_row_num : string;
  raw_size : string;
  raw_archiveid : string;
  raw_sha256treehash : string;
  raw_archivedescription : string;
  raw_creationdate : string
}.

Record Line : Type := {
  row_num : num;
  size : num;
  archiveid : string;
  sha256treehash : string;
  archivedescription : string;
  creationdate : string
}.

(** Events of the stream [s3.getObject(..).createReadStream().pipe(csv())]. *)
Inductive StreamEvent : Type :=
| EvData (data : RawRow)
| EvEnd
| EvError (message : string).

#[global] Instance RawRow_eq_dec : EqDecision RawRow.
Proof. solve_decision. Defined.

#[global] Instance StreamEvent_eq_dec : EqDecision StreamEvent.
Proof. solve_decision. Defined.

(** ** Status records

    The item [handler] marshalls for [putItem]; the table's primary key is
    [aid]. *)

Record StatusRecord : Type := {
  aid : string;
  jobId : string;
  ifn : num;
  pid : num;
  sha : string;
  sz : num;
  cdt : string;
  descr : string;
  fname : string;
  cc : num;
  rc : num
}.

#[global] Instance StatusRecord_eq_dec : EqDecision StatusRecord.
Proof. solve_decision. Defined.

(** The key DynamoDB reports in [LastEvaluatedKey] for the index
    [max-file-index]: index keys and table key, numbers in their [N]
    (decimal string) form. *)
Record IndexKey : Type := {
  key_pid_N : string;
  key_ifn_N : string;
  key_aid_S : string
}.

Record QueryOutput : Type := {
  Count : Z;
  LastEvaluatedKey : option IndexKey
}.

(** ** Outcomes of asynchronous calls *)

Inductive error : Type :=
| AthenaException            (* throw "Athena exception" *)
| TypeError                  (* property access on undefined *)
| ServiceError (service : string).  (* a rejected SDK promise *)

(** An awaited promise is fulfilled, rejected, or never settles; or an
    exception nobody catches (an ['error'] event without a listener) ends the
    process while the promise is awaited. *)
Inductive outcome (A : Type) : Type :=
| Ok (a : A)
| Throw (e : error)
| Pending
| Uncaught (message : string).

Arguments Ok {A} a.
Arguments Throw {A} e.
Arguments Pending {A}.
Arguments Uncaught {A} message.

(** ** The services the handler talks to

    None of them is part of the repository; their answers are inputs. *)

Record Env : Type := {
  (** [./lib/filenameparser.js], a deterministic rule on
      (archive id, description) *)
  parseFileName : string -> string -> string;
  (** job id answered to the [n]-th [glacier.initiateJob] for an archive
      id, [None] when the call is rejected *)
  glacier_initiateJob : nat -> string -> option string;
  (** whether [dynamodb.putItem] accepts the item *)
  dynamodb_putItem_ok : StatusRecord -> bool;
  (** [QueryExecutionId] answered by [athena.startQueryExecution] *)
  athena_QueryExecutionId : string;
  (** the [Status.State] answered by the successive
      [athena.getQueryExecution] calls *)
  athena_states : list string;
  (** the events of the CSV stream of an S3 key, in order *)
  s3_csv_events : string -> list StreamEvent;
  (** [moment().format()] at the [n]-th submission *)
  moment_format : nat -> string
}.

(** What an invocation can change: the status table (keyed by [aid]), the
    archive ids passed to [glacier.initiateJob] so far, and the caller's
    payload object. *)
Record World : Type := {
  status_table : gmap string StatusRecord;
  glacier_calls : list string;
  payload : gmap string num
}.

Definition M (A : Type) : Type := World -> outcome A * World.

Definition ret {A} (a : A) : M A := fun w => (Ok a, w).

Definition throw {A} (e : error) : M A := fun w => (Throw e, w).

Definition bind {A B} (m : M A) (f : A -> M B) : M B :=
  fun w =>
    match m w with
    | (Ok a, w') => f a w'
    | (Throw e, w') => (Throw e, w')
    | (Pending, w') => (Pending, w')
    | (Uncaught m, w') => (Uncaught m, w')
    end.

Notation "x <- m ;; k" := (bind m (fun x => k))
  (at level 100, m at next level, right associativity).

(** ** DynamoDB queries of the handler *)

Definition table_items (db : gmap string StatusRecord) : list StatusRecord :=
  (map_to_list db).*2.

(** First item of a descending scan on [ifn]. *)
Fixpoint top_ifn (items : list StatusRecord) : option StatusRecord :=
  match items with
  | [] => None
  | r :: rest =>
      match top_ifn rest with
      | Some r' => if num_le (ifn r) (ifn r') then Some r' else Some r
      | None => Some r
      end
  end.

(** [IndexName: "max-file-index", KeyConditionExpression: "pid = :pid",
    ScanIndexForward: false, Limit: 1].  The store rejects the query when
    the key value [:pid] is not a number (the [N] string of [NaN]).  With
    the limit reached DynamoDB reports the key of the item it stopped at. *)
Definition query_max_file_index (db : gmap string StatusRecord) (pid_N : string)
  : outcome QueryOutput :=
  if String.eqb pid_N "NaN" then Throw (ServiceError "dynamodb")
  else
    match top_ifn (filter (fun r => Number_toString (pid r) = pid_N) (table_items db)) with
    | Some r =>
        Ok {| Count := 1;
              LastEvaluatedKey :=
                Some {| key_pid_N := Number_toString (pid r);
                        key_ifn_N := Number_toString (ifn r);
                        key_aid_S := aid r |} |}
    | None => Ok {| Count := 0; LastEvaluatedKey := None |}
    end.

(** [IndexName: "name-index", KeyConditionExpression: "fname = :fname",
    Select: "COUNT", Limit: 1] *)
Definition query_name_index (db : gmap string StatusRecord) (fname_S : string)
  : QueryOutput :=
  {| Count := Z.of_nat (length (take 1 (filter (fun r => fname r = fname_S) (table_items db))));
     LastEvaluatedKey := None |}.

Definition getPartitionMaxProcessedFileNumber (pid : num) : M num :=
  fun w =>
    match query_max_file_index (status_table w) (Number_toString pid) with
    | Ok result =>
        if Count result =? 0 then (Ok (Num 0), w)
        else
          match LastEvaluatedKey result with
          | Some k => (Ok (parseInt (key_ifn_N k)), w)
          | None => (Throw TypeError, w)
          end
    | Throw e => (Throw e, w)
    | Pending => (Pending, w)
    | Uncaught m => (Uncaught m, w)
    end.

Definition filenameExists (fname : string) : M bool :=
  fun w =>
    let result := query_name_index (status_table w) fname in
    (Ok (negb (Count result =? 0)), w).

(** ** Inventory reader *)

(** The [while (!runComplete)] loop over the answers of
    [getQueryExecution]; it has no bound, so answers that never leave
    QUEUED/RUNNING leave the call pending. *)
Fixpoint athena_wait (states : list string) : outcome unit :=
  match states with
  | [] => Pending
  | State :: rest =>
      if negb (bool_decide (State ∈ ["QUEUED"; "RUNNING"; "SUCCEEDED"]))
      then Throw AthenaException
      else if String.eqb State "SUCCEEDED" then Ok tt
      else athena_wait rest
  end.

Definition on_data (data : RawRow) : Line :=
  {| row_num := parseInt (raw_row_num data);
     size := parseInt (raw_size data);
     archiveid := raw_archiveid data;
     sha256treehash := raw_sha256treehash data;
     archivedescription := raw_archivedescription data;
     creationdate := raw_creationdate data |}.

(** The promise of [readResultsCSV]: ['data'] pushes the coerced row,
    ['end'] resolves with the rows pushed so far; the executor has no
    [reject], and no listener is registered for ['error'], so that event is
    thrown where it is emitted and, caught by nobody, ends the process. *)
Fixpoint csv_promise (events : list StreamEvent) (lines : list Line)
  : outcome (list Line) :=
  match events with
  | [] => Pending
  | EvData data :: rest => csv_promise rest (lines ++ [on_data data])
  | EvEnd :: _ => Ok lines
  | EvError message :: _ => Uncaught message
  end.

(** The world after [glacier.initiateJob] was called for an archive, and
    after [putItem] stored an item (an item with the same [aid] is
    replaced). *)
Definition submitted (w : World) (ArchiveId : string) : World :=
  {| status_table := status_table w;
     glacier_calls := glacier_calls w ++ [ArchiveId];
     payload := payload w |}.

Definition stored (w : World) (Item : StatusRecord) : World :=
  {| status_table := <[aid Item := Item]> (status_table w);
     glacier_calls := glacier_calls w;
     payload := payload w |}.

Section Handler.

Context (env : Env).

Definition readAthenaPartition (partNumber : num) : M string :=
  fun w =>
    let QueryExecutionId := athena_QueryExecutionId env in
    match athena_wait (athena_states env) with
    | Ok _ => (Ok ("results/" +:+ QueryExecutionId +:+ ".csv"), w)
    | Throw e => (Throw e, w)
    | Pending => (Pending, w)
    | Uncaught m => (Uncaught m, w)
    end.

Definition readResultsCSV (key : string) : M (list Line) :=
  fun w => (csv_promise (s3_csv_events env key) [], w).

(** ** Retrieval submitter and progress recorder *)

Definition initiateJob (ArchiveId : string) : M string :=
  fun w =>
    match glacier_initiateJob env (length (glacier_calls w)) ArchiveId with
    | Some job => (Ok job, submitted w ArchiveId)
    | None => (Throw (ServiceError "glacier"), submitted w ArchiveId)
    end.

Definition putItem (Item : StatusRecord) : M unit :=
  fun w =>
    if dynamodb_putItem_ok env Item
    then (Ok tt, stored w Item)
    else (Throw (ServiceError "dynamodb"), w).

(** [moment().format()], read after the submission. *)
Definition moment : M string :=
  fun w => (Ok (moment_format env (length (glacier_calls w))), w).

(** ** Partition driver *)

(** The variables the row loop carries from one iteration to the next. *)
Record LoopState : Type := {
  processed : list string;
  partitionMaxProcessedFileNumber : num
}.

(** [processed.includes(fname) || (await filenameExists(fname))] *)
Definition is_duplicate (processed : list string) (fname : string) : M bool :=
  if bool_decide (fname ∈ processed) then ret true else filenameExists fname.

(** One iteration of [for (const line of lines)]. *)
Definition handler_row (pid : num) (line : Line) (st : LoopState) : M LoopState :=
  if num_le (row_num line) (partitionMaxProcessedFileNumber st) then ret st
  else
    let fname0 := parseFileName env (archiveid line) (archivedescription line) in
    dup <- is_duplicate (processed st) fname0 ;;
    let fname1 := if dup : bool then fname0 +:+ "-" +:+ creationdate line else fname0 in
    glacierJobId <- initiateJob (archiveid line) ;;
    cdt0 <- moment ;;
    _ <- putItem {| aid := archiveid line;
                    jobId := glacierJobId;
                    ifn := row_num line;
                    pid := pid;
                    sha := sha256treehash line;
                    sz := size line;
                    cdt := cdt0;
                    descr := archivedescription line;
                    fname := fname1;
                    cc := calculateNumberOfChunks (size line);
                    rc := Num 0 |} ;;
    ret {| processed := processed st ++ [fname1];
           partitionMaxProcessedFileNumber := row_num line |}.

Fixpoint handler_loop (pid : num) (lines : list Line) (st : LoopState) : M LoopState :=
  match lines with
  | [] => ret st
  | line :: rest => st' <- handler_row pid line st ;; handler_loop pid rest st'
  end.

Definition set_nextPartition (v : num) : M unit :=
  fun w => (Ok tt, {| status_table := status_table w;
                      glacier_calls := glacier_calls w;
                      payload := <["nextPartition" := v]> (payload w) |}).

(** [handler(payload)].  A payload without [nextPartition] makes
    [pid.toString()] in [getPartitionMaxProcessedFileNumber] throw before
    anything else happens. *)
Definition handler : M (gmap string num) :=
  fun w0 =>
    match payload w0 !! "nextPartition" with
    | None => throw TypeError w0
    | Some pid =>
        (cursor <- getPartitionMaxProcessedFileNumber pid ;;
         resultsCSV <- readAthenaPartition pid ;;
         lines <- readResultsCSV resultsCSV ;;
         _ <- handler_loop pid lines
                {| processed := []; partitionMaxProcessedFileNumber := cursor |} ;;
         _ <- set_nextPartition (num_succ pid) ;;
         (fun w => (Ok (payload w), w))) w0
    end.

End Handler.

(** ** Vocabulary of the specification *)

(** [ceil(s / c)] *)
Definition ceiling_quotient (s c : Z) : Z := - ((- s) / c).

(** The status records of a partition. *)
Definition partition_record (db : gmap string StatusRecord) (p : num)
    (r : StatusRecord) : Prop :=
  r ∈ table_items db ∧ pid r = p.

(** A name is taken when it was assigned earlier in this run or a persisted
    record carries it. *)
Definition name_taken (db : gmap string StatusRecord) (seen : list string)
    (name : string) : Prop :=
  name ∈ seen ∨ Exists (fun r => fname r = name) (table_items db).

#[global] Instance name_taken_dec db seen name : Decision (name_taken db seen name).
Proof. unfold name_taken. apply _. Defined.

(** The resolved name of the name resolver: the base name, suffixed with the
    creation timestamp when taken. *)
Definition resolvedName (env : Env) (db : gmap string StatusRecord)
    (seen : list string) (line : Line) : string :=
  let base := parseFileName env (archiveid line) (archivedescription line) in
  if decide (name_taken db seen base)
  then base +:+ "-" +:+ creationdate line
  else base.

(** A status store that, like a typed number attribute, refuses an item
    whose row number, size or chunk count is not a number. *)
Definition rejects_NaN (env : Env) : Prop :=
  forall r, dynamodb_putItem_ok env r = true ->
            ifn r <> NaN /\ sz r <> NaN /\ cc r <> NaN.

(** Either every row read so far carries an integer row number, or the
    store refuses the others. *)
Definition row_numbers_kept_numeric (env : Env) (lines : list Line) : Prop :=
  Forall (fun l => row_num l <> NaN) lines \/ rejects_NaN env.

(** The status record of a row, once its name is resolved and its job is
    submitted as the [n]-th one. *)
Definition status_item (env : Env) (p : num) (line : Line) (name job : string)
    (n : nat) : StatusRecord :=
  {| aid := archiveid line;
     jobId := job;
     ifn := row_num line;
     pid := p;
     sha := sha256treehash line;
     sz := size line;
     cdt := moment_format env n;
     descr := archivedescription line;
     fname := name;
     cc := calculateNumberOfChunks (size line);
     rc := Num 0 |}.

(** Every record of the table carries a positive integer row number. *)
Definition row_numbers_positive (db : gmap string StatusRecord) : Prop :=
  forall r, r ∈ table_items db -> exists z, ifn r = Num z /\ 0 < z.

(** The loop state [handler] starts the row loop with. *)
Definition loop_start (cursor : num) : LoopState :=
  {| processed := []; partitionMaxProcessedFileNumber := cursor |}.

(** The uniqueness asked of resolved names, for the run of the row loop
    over [lines] from the cursor: whenever the record of a row is written,
    no record then in the table carries the name it is written with. *)
Definition names_unique_when_written (env : Env) (p cursor : num)
    (lines : list Line) (w : World) : Prop :=
  forall pre line post st1 w1 st2 w2 existing written,
    lines = (pre ++ line :: post)%list ->
    handler_loop env p pre (loop_start cursor) w = (Ok st1, w1) ->
    num_le (row_num line) (partitionMaxProcessedFileNumber st1) = false ->
    handler_row env p line st1 w1 = (Ok st2, w2) ->
    existing ∈ table_items (status_table w1) ->
    status_table w2 !! archiveid line = Some written ->
    fname written <> fname existing.

(** The S3 key [readAthenaPartition] returns. *)
Definition results_key (env : Env) : string :=
  "results/" +:+ athena_QueryExecutionId env +:+ ".csv".

(** The data rows a stream delivers before it ends or fails. *)
Fixpoint rows_before_end (events : list StreamEvent) : list RawRow :=
  match events with
  | [] => []
  | EvData data :: rest => data :: rows_before_end rest
  | EvEnd :: _ => []
  | EvError _ :: _ => []
  end.

(** ** Sample inventories and services *)

Definition csv_row (n s a d c : string) : RawRow :=
  {| raw_row_num := n; raw_size := s; raw_archiveid := a;
     raw_sha256treehash := "beef"; raw_archivedescription := d;
     raw_creationdate := c |}.

Definition is_number (n : num) : bool :=
  match n with Num _ => true | NaN => false end.

(** A store with typed number attributes. *)
Definition typed_store (r : StatusRecord) : bool :=
  is_number (ifn r) && is_number (pid r) && is_number (sz r)
  && is_number (cc r) && is_number (rc r).

(** Modelled from the spec: [parseFileName] of [./lib/filenameparser.js] is
    not among the sources; the specification says it derives a base name
    from the description or the archive id by a deterministic rule.  The
    sample rule takes the description, and the archive id when there is no
    description. *)
Definition sample_parseFileName (archiveId description : string) : string :=
  if String.eqb description "" then archiveId else description.

(** Services that accept every call, with a typed store, for a query that
    goes through [states] and a result stream that delivers [events]. *)
Definition sample_env (states : list string) (events : list StreamEvent) : Env :=
  {| parseFileName := sample_parseFileName;
     glacier_initiateJob := fun n a => Some ("job-" +:+ a);
     dynamodb_putItem_ok := typed_store;
     athena_QueryExecutionId := "q-1";
     athena_states := states;
     s3_csv_events := fun key => if String.eqb key "results/q-1.csv" then events else [];
     moment_format := fun n => "2020-11-03T10:00:00+00:00" |}.

Definition sample_record (a : string) (i p : Z) (name : string) : StatusRecord :=
  {| aid := a; jobId := "job-" +:+ a; ifn := Num i; pid := Num p; sha := "beef";
     sz := Num 100; cdt := "2020-11-02T10:00:00+00:00"; descr := name;
     fname := name; cc := Num 1; rc := Num 0 |}.

Definition sample_world (records : list StatusRecord) : World :=
  {| status_table := list_to_map ((fun r => (aid r, r)) <$> records);
     glacier_calls := [];
     payload := {[ "nextPartition" := Num 7; "maxPartition" := Num 9 ]} |}.

Definition succeeded : list string := ["QUEUED"; "RUNNING"; "SUCCEEDED"].

(** Rows [(1,100), (2,100)] of partition 7. *)
Definition two_rows : list StreamEvent :=
  [EvData (csv_row "1" "100" "a1" "photo" "2019-05-01T00:00:00Z");
   EvData (csv_row "2" "100" "a2" "video" "2019-05-02T00:00:00Z");
   EvEnd].

(** Three archives described as "photo", created at the same time. *)
Definition three_photos : list StreamEvent :=
  [EvData (csv_row "1" "100" "a1" "photo" "2019");
   EvData (csv_row "2" "100" "a2" "photo" "2019");
   EvData (csv_row "3" "100" "a3" "photo" "2019");
   EvEnd].

(** A row whose size column is not a number. *)
Definition bad_size_row (n : string) : RawRow := csv_row n "n/a" "a3" "notes" "2019".

Definition photo_line (n a : string) : Line := on_data (csv_row n "100" a "photo" "2019").

Definition with_payload (w : World) (object : gmap string num) : World :=
  {| status_table := status_table w;
     glacier_calls := glacier_calls w;
     payload := object |}.

(** The world after a run over [two_rows] from an empty table: two records,
    row numbers 1 and 2, one chunk each, and [nextPartition] 8. *)
Definition two_rows_done : World :=
  let env := sample_env succeeded two_rows in
  let line1 := on_data (csv_row "1" "100" "a1" "photo" "2019-05-01T00:00:00Z") in
  let line2 := on_data (csv_row "2" "100" "a2" "video" "2019-05-02T00:00:00Z") in
  let w1 := stored (submitted (sample_world []) "a1")
                   (status_item env (Num 7) line1 "photo" "job-a1" 1) in
  let w2 := stored (submitted w1 "a2")
                   (status_item env (Num 7) line2 "video" "job-a2" 2) in
  with_payload w2 (<["nextPartition" := Num 8]> (payload w2)).

(** The world after the first of the photo rows was processed. *)
Definition first_photo_done (env : Env) (w : World) : World :=
  stored (submitted w "a1")
         (status_item env (Num 7) (photo_line "1" "a1") "photo" "job-a1"
                      (S (length (glacier_calls w)))).

(** ** Further vocabulary *)

(** [a < b]: false as soon as one side is [NaN]. *)
Definition num_lt (a b : num) : bool :=
  match a, b with
  | Num x, Num y => x <? y
  | _, _ => false
  end.

(** A state in which the poll loop goes on waiting. *)
Definition polling (State : string) : Prop :=
  State = "QUEUED" \/ State = "RUNNING".

(** The rows the comparison with a cursor does not skip. *)
Definition rows_above (cursor : num) (lines : list Line) : list Line :=
  filter (fun l => num_le (row_num l) cursor = false) lines.

(** An inventory in strictly increasing order of row number, as
    [order by row_num] delivers distinct row numbers. *)
Definition row_numbers_ascending (lines : list Line) : Prop :=
  StronglySorted (fun a b => num_lt (row_num a) (row_num b) = true) lines.

(** The records of a partition carry non-negative integer row numbers. *)
Definition partition_row_numbers_natural (db : gmap string StatusRecord)
    (p : num) : Prop :=
  forall r, partition_record db p r -> exists z, ifn r = Num z /\ 0 <= z.

(** What holds of every record a run of the partition [p] writes. *)
Definition written_for (p : num) (r : StatusRecord) : Prop :=
  pid r = p /\ rc r = Num 0 /\ cc r = calculateNumberOfChunks (sz r).

(** ** The metrics publisher ([postMetrics])

    [handler] reads the items [count] and [volume] of the metrics table,
    caps the progress figures by the totals and hands ten metrics to
    [metrics.publishMetric].  [lib/dynamo.js] and [lib/metrics.js] are not
    part of the sources: what [dynamo.getItem] answers is an input, and the
    list handed to [publishMetric] is the result. *)

Module PostMetrics.

(** A metric value: a number, or [null] ([None]). *)
Record Metric : Type := {
  metricName : string;
  metricValue : option num
}.

#[global] Instance Metric_eq_dec : EqDecision Metric.
Proof. solve_decision. Defined.

(** [item && item.name ? parseInt(item.name.N) : missing], for an item
    given by the [N] strings of its attributes ([None]: no item). *)
Definition attribute (item : option (gmap string string)) (name : string)
    (missing : option num) : option num :=
  match item with
  | Some attributes =>
      match attributes !! name with
      | Some N => Some (parseInt N)
      | None => missing
      end
  | None => missing
  end.

(** [if (v)]: [null], [0] and [NaN] are falsy. *)
Definition truthy (v : option num) : bool :=
  match v with
  | Some (Num z) => negb (z =? 0)
  | Some NaN => false
  | None => false
  end.

(** [null] counts as [0] in a comparison. *)
Definition ToNumber (v : option num) : num :=
  match v with
  | Some n => n
  | None => Num 0
  end.

(** [a > b] *)
Definition gt (a b : option num) : bool :=
  match ToNumber a, ToNumber b with
  | Num x, Num y => y <? x
  | _, _ => false
  end.

(** [x > total ? total : x] *)
Definition cap (x total : option num) : option num :=
  if gt x total then total else x.

Definition handler (getItem : string -> option (gmap string string)) : list Metric :=
  let progressCount := getItem "count" in
  let progressVolume := getItem "volume" in
  let totalCount := attribute progressCount "total" None in
  let requestedCount := attribute progressCount "requested" (Some (Num 0)) in
  let stagedCount := attribute progressCount "staged" (Some (Num 0)) in
  let validatedCount := attribute progressCount "validated" (Some (Num 0)) in
  let copiedCount := attribute progressCount "copied" (Some (Num 0)) in
  let totalBytes := attribute progressVolume "total" None in
  let requestedBytes := attribute progressVolume "requested" (Some (Num 0)) in
  let stagedBytes := attribute progressVolume "staged" (Some (Num 0)) in
  let validatedBytes := attribute progressVolume "validated" (Some (Num 0)) in
  let copiedBytes := attribute progressVolume "copied" (Some (Num 0)) in
  let limit (x total : option num) :=
    if truthy totalCount then cap x total else x in
  [ {| metricName := "ArchiveCountTotal"; metricValue := totalCount |};
    {| metricName := "ArchiveCountRequested"; metricValue := limit requestedCount totalCount |};
    {| metricName := "ArchiveCountStaged"; metricValue := limit stagedCount totalCount |};
    {| metricName := "ArchiveCountValidated"; metricValue := limit validatedCount totalCount |};
    {| metricName := "ArchiveCountCompleted"; metricValue := limit copiedCount totalCount |};
    {| metricName := "BytesTotal"; metricValue := totalBytes |};
    {| metricName := "BytesRequested"; metricValue := limit requestedBytes totalBytes |};
    {| metricName := "BytesStaged"; metricValue := limit stagedBytes totalBytes |};
    {| metricName := "BytesValidated"; metricValue := limit validatedBytes totalBytes |};
    {| metricName := "BytesCompleted"; metricValue := limit copiedBytes totalBytes |} ].

(** The progress figures: every metric but the two totals. *)
Definition progress_metric (m : Metric) : Prop :=
  metricName m <> "ArchiveCountTotal" /\ metricName m <> "BytesTotal".

Definition count_metric (m : Metric) : Prop :=
  metricName m ∈ ["ArchiveCountRequested"; "ArchiveCountStaged";
                  "ArchiveCountValidated"; "ArchiveCountCompleted"].

Definition bytes_metric (m : Metric) : Prop :=
  metricName m ∈ ["BytesRequested"; "BytesStaged"; "BytesValidated"; "BytesCompleted"].

(** The figures as the table holds them, before any cap. *)
Definition uncapped (getItem : string -> option (gmap string string)) : list Metric :=
  let figure item name missing := attribute (getItem item) name missing in
  [ {| metricName := "ArchiveCountTotal"; metricValue := figure "count" "total" None |};
    {| metricName := "ArchiveCountRequested";
       metricValue := figure "count" "requested" (Some (Num 0)) |};
    {| metricName := "ArchiveCountStaged";
       metricValue := figure "count" "staged" (Some (Num 0)) |};
    {| metricName := "ArchiveCountValidated";
       metricValue := figure "count" "validated" (Some (Num 0)) |};
    {| metricName := "ArchiveCountCompleted";
       metricValue := figure "count" "copied" (Some (Num 0)) |};
    {| metricName := "BytesTotal"; metricValue := figure "volume" "total" None |};
    {| metricName := "BytesRequested";
       metricValue := figure "volume" "requested" (Some (Num 0)) |};
    {| metricName := "BytesStaged";
       metricValue := figure "volume" "staged" (Some (Num 0)) |};
    {| metricName := "BytesValidated";
       metricValue := figure "volume" "validated" (Some (Num 0)) |};
    {| metricName := "BytesCompleted";
       metricValue := figure "volume" "copied" (Some (Num 0)) |} ].

(** A metrics table given by its items. *)
Definition sample_getItem (count volume : option (gmap string string))
    (key : string) : option (gmap string string) :=
  if String.eqb key "count" then count
  else if String.eqb key "volume" then volume
  else None.

End PostMetrics.

(** ** The log groups of the monitoring construct

    The constructor of [Monitoring] creates one log group for the state
    machine and one for each directory of the Lambda source folder, two
    names excepted, and shows their names in the log widget.  The stack
    name and the directory listing are inputs; the log groups created so
    far are the state.  A construct id may be used once: the properties are
    stated for listings that give every log group an id of its own (a
    second use makes [new logs.CfnLogGroup] throw, which is not
    modelled). *)

Module Monitoring.

(** [new logs.CfnLogGroup(construct, id, {logGroupName})] *)
Record CfnLogGroup : Type := {
  id : string;
  logGroupName : string
}.

Section Stack.

Context (STACK_NAME : string).

Definition createStackLogGroup (created : list CfnLogGroup) (prefix name : string)
  : string * list CfnLogGroup :=
  let logGroupName := prefix +:+ "/" +:+ STACK_NAME +:+ "-" +:+ name in
  (logGroupName,
   (created ++ [{| id := name +:+ "LogGroup"; logGroupName := logGroupName |}])%list).

(** The callback of [fs.readdirSync(directoryPath).map], on an entry and
    whether it is a directory. *)
Definition visit (acc : list string * list CfnLogGroup) (entry : string * bool)
  : list string * list CfnLogGroup :=
  let '(logGroupNames, created) := acc in
  let '(name, isDirectory) := entry in
  if isDirectory then
    if String.eqb name "toLowercase" then acc
    else if String.eqb name "generateUuid" then acc
    else
      let '(logGroupName, created') := createStackLogGroup created "/aws/lambda" name in
      ((logGroupNames ++ [logGroupName])%list, created')
  else acc.

(** [logGroupNames] as the log widget receives it, and the log groups
    created. *)
Definition logGroups (entries : list (string * bool)) : list string * list CfnLogGroup :=
  let '(first, created) := createStackLogGroup [] "/aws/states" "stageTwoOrchestrator" in
  fold_left visit entries ([first], created).

End Stack.

(** The directories that get a log group. *)
Definition lambda_directories (entries : list (string * bool)) : list string :=
  (filter (fun e : string * bool =>
             e.2 = true /\ e.1 <> "toLowercase" /\ e.1 <> "generateUuid") entries).*1.

End Monitoring.

(** ** More sample inputs *)

(** The sample services, with Glacier rejecting the second job request. *)
Definition second_job_rejected (states : list string) (events : list StreamEvent) : Env :=
  let env := sample_env states events in
  {| parseFileName := parseFileName env;
     glacier_initiateJob := fun n a => if Nat.eqb n 1 then None else glacier_initiateJob env n a;
     dynamodb_putItem_ok := dynamodb_putItem_ok env;
     athena_QueryExecutionId := athena_QueryExecutionId env;
     athena_states := athena_states env;
     s3_csv_events := s3_csv_events env;
     moment_format := moment_format env |}.

(** A metrics table whose progress figures exceed the totals. *)
Definition overshooting_metrics : string -> option (gmap string string) :=
  PostMetrics.sample_getItem
    (Some {[ "total" := "10"; "requested" := "12"; "staged" := "3" ]})
    (Some {[ "total" := "1000"; "requested" := "5000" ]}).

(** A metrics table without the item [count]. *)
Definition metrics_without_count : string -> option (gmap string string) :=
  PostMetrics.sample_getItem None (Some {[ "total" := "1000"; "requested" := "5000" ]}).

(** A listing of the Lambda source folder. *)
Definition sample_entries : list (string * bool) :=
  [("requestArchives", true); ("toLowercase", true); ("README.md", false);
   ("postMetrics", true); ("generateUuid", true)].

(** * Properties *)

Example parseInt_ex1 : parseInt "  42abc" = Num 42. Proof. reflexivity. Qed.
Example parseInt_ex2 : parseInt "-0x1F" = Num (-31). Proof. reflexivity. Qed.
Example parseInt_ex3 : parseInt "abc" = NaN. Proof. reflexivity. Qed.
Example parseInt_ex4 : parseInt "" = NaN. Proof. reflexivity. Qed.
Example toString_ex1 : Number_toString (Num (-1205)) = "-1205". Proof. reflexivity. Qed.
Example toString_ex2 : Number_toString (Num 0) = "0". Proof. reflexivity. Qed.

Lemma strip_whitespace_digits u :
  strip_whitespace (NilEmpty.string_of_uint u) = NilEmpty.string_of_uint u.
Proof. destruct u; reflexivity. Qed.

Lemma split_sign_digits u :
  split_sign (NilEmpty.string_of_uint u) = (1, NilEmpty.string_of_uint u).
Proof. destruct u; reflexivity. Qed.

Lemma split_radix_digits u :
  split_radix (NilEmpty.string_of_uint u) = (10, NilEmpty.string_of_uint u).
Proof. destruct u as [|u|u|u|u|u|u|u|u|u|u]; try reflexivity; destruct u; reflexivity. Qed.

Lemma parse_digits_pos u : forall p,
  parse_digits 10 (NilEmpty.string_of_uint u) (Some (Z.pos p))
  = Some (Z.pos (Pos.of_uint_acc u p)).
Proof.
  induction u; intros p; cbn [NilEmpty.string_of_uint parse_digits Pos.of_uint_acc];
    [reflexivity | ..];
    (change (radix_digit 10 _) with (Some 0) ||
     change (radix_digit 10 _) with (Some 1) ||
     change (radix_digit 10 _) with (Some 2) ||
     change (radix_digit 10 _) with (Some 3) ||
     change (radix_digit 10 _) with (Some 4) ||
     change (radix_digit 10 _) with (Some 5) ||
     change (radix_digit 10 _) with (Some 6) ||
     change (radix_digit 10 _) with (Some 7) ||
     change (radix_digit 10 _) with (Some 8) ||
     change (radix_digit 10 _) with (Some 9));
    cbn [from_option id]; rewrite <- IHu; f_equal; f_equal; lia.
Qed.

Lemma parse_digits_zero u :
  parse_digits 10 (NilEmpty.string_of_uint u) (Some 0)
  = Some (Z.of_N (Pos.of_uint u)).
Proof.
  induction u; cbn [NilEmpty.string_of_uint parse_digits Pos.of_uint];
    [reflexivity | exact IHu | ..]; apply parse_digits_pos.
Qed.

Lemma parse_digits_start u :
  u <> Decimal.Nil ->
  parse_digits 10 (NilEmpty.string_of_uint u) None
  = Some (Z.of_N (Pos.of_uint u)).
Proof.
  destruct u; intros Hu; [congruence | ..];
    cbn [NilEmpty.string_of_uint parse_digits Pos.of_uint];
    [apply parse_digits_zero | ..]; apply parse_digits_pos.
Qed.

Lemma N_to_uint_nonnil n : N.to_uint n <> Decimal.Nil.
Proof.
  destruct n as [|p]; [discriminate |].
  apply DecimalPos.Unsigned.to_uint_nonnil.
Qed.

Lemma parse_digits_to_uint n :
  parse_digits 10 (NilEmpty.string_of_uint (N.to_uint n)) None = Some (Z.of_N n).
Proof.
  rewrite parse_digits_start by apply N_to_uint_nonnil.
  change (Pos.of_uint (N.to_uint n)) with (N.of_uint (N.to_uint n)).
  now rewrite DecimalN.Unsigned.of_to.
Qed.

Lemma strip_whitespace_minus s :
  strip_whitespace (String "-" s) = String "-" s.
Proof. reflexivity. Qed.

(** Reading back the decimal form of a number gives the number. *)
Lemma parseInt_toString n : parseInt (Number_toString n) = n.
Proof.
  destruct n as [z|]; [| reflexivity].
  unfold Number_toString, parseInt.
  destruct (Z.ltb_spec z 0) as [Hz|Hz].
  - rewrite strip_whitespace_minus. cbn [split_sign].
    rewrite split_radix_digits, parse_digits_to_uint.
    f_equal. lia.
  - rewrite strip_whitespace_digits, split_sign_digits, split_radix_digits,
      parse_digits_to_uint.
    f_equal. lia.
Qed.

Lemma Number_toString_inj a b : Number_toString a = Number_toString b -> a = b.
Proof.
  intros H. rewrite <- (parseInt_toString a), <- (parseInt_toString b).
  now rewrite H.
Qed.

(** ** Chunk planner *)

Lemma CHUNK_SIZE_value : CHUNK_SIZE = 4294967296.
Proof. reflexivity. Qed.

Lemma ceiling_quotient_spec s c :
  0 < c ->
  (ceiling_quotient s c - 1) * c < s <= ceiling_quotient s c * c.
Proof.
  intros Hc. unfold ceiling_quotient.
  pose proof (Z.div_mod (- s) c ltac:(lia)) as Hdm.
  pose proof (Z.mod_pos_bound (- s) c Hc) as Hb.
  nia.
Qed.

Lemma calculateNumberOfChunks_Num s :
  calculateNumberOfChunks (Num s) =
  Num (s / CHUNK_SIZE + if Z.rem s CHUNK_SIZE =? 0 then 0 else 1).
Proof.
  unfold calculateNumberOfChunks, num_rem, num_floor_div, num_nonzero, num_succ.
  destruct (Z.rem s CHUNK_SIZE =? 0); cbn [negb]; f_equal; lia.
Qed.

Lemma rem_zero_iff_mod_zero s c : 0 < c -> Z.rem s c = 0 <-> s mod c = 0.
Proof.
  intros Hc. rewrite Z.rem_divide by lia. rewrite Z.mod_divide by lia. reflexivity.
Qed.

Lemma calculateNumberOfChunks_ceiling s :
  calculateNumberOfChunks (Num s) = Num (ceiling_quotient s CHUNK_SIZE).
Proof.
  rewrite calculateNumberOfChunks_Num. f_equal.
  assert (Hc : 0 < CHUNK_SIZE) by (rewrite CHUNK_SIZE_value; lia).
  pose proof (ceiling_quotient_spec s CHUNK_SIZE Hc) as Hceil.
  pose proof (Z.div_mod s CHUNK_SIZE ltac:(lia)) as Hdm.
  pose proof (Z.mod_pos_bound s CHUNK_SIZE Hc) as Hb.
  pose proof (rem_zero_iff_mod_zero s CHUNK_SIZE Hc) as Hrm.
  destruct (Z.eqb_spec (Z.rem s CHUNK_SIZE) 0) as [Hr|Hr].
  - apply Hrm in Hr. nia.
  - assert (s mod CHUNK_SIZE <> 0) by tauto. nia.
Qed.

(** C1. For every non-negative size [s], [calculateNumberOfChunks s] is
    [ceil(s / CHUNK_SIZE)]: it is the least [n] with [s <= n * CHUNK_SIZE];
    it is [0] at [0], exactly [s / CHUNK_SIZE] on a multiple of
    [CHUNK_SIZE], and [floor(s / CHUNK_SIZE) + 1] otherwise. *)
Theorem calculateNumberOfChunks_is_ceiling (s : Z) :
  0 <= s ->
  calculateNumberOfChunks (Num s) = Num (ceiling_quotient s CHUNK_SIZE)
  /\ (ceiling_quotient s CHUNK_SIZE - 1) * CHUNK_SIZE < s
       <= ceiling_quotient s CHUNK_SIZE * CHUNK_SIZE
  /\ calculateNumberOfChunks (Num 0) = Num 0
  /\ (s mod CHUNK_SIZE = 0 ->
      calculateNumberOfChunks (Num s) = Num (s / CHUNK_SIZE))
  /\ (s mod CHUNK_SIZE <> 0 ->
      calculateNumberOfChunks (Num s) = Num (s / CHUNK_SIZE + 1)).
Proof.
  intros _.
  assert (Hc : 0 < CHUNK_SIZE) by (rewrite CHUNK_SIZE_value; lia).
  pose proof (rem_zero_iff_mod_zero s CHUNK_SIZE Hc) as Hrm.
  split; [apply calculateNumberOfChunks_ceiling |].
  split; [apply ceiling_quotient_spec; exact Hc |].
  split; [reflexivity |].
  split; intros Hm; rewrite calculateNumberOfChunks_Num; f_equal.
  - destruct (Z.eqb_spec (Z.rem s CHUNK_SIZE) 0); [lia | tauto].
  - destruct (Z.eqb_spec (Z.rem s CHUNK_SIZE) 0); [tauto | lia].
Qed.

Lemma calculateNumberOfChunks_is_ceiling_witness :
  0 <= CHUNK_SIZE + 1
  /\ calculateNumberOfChunks (Num (CHUNK_SIZE + 1)) = Num 2
  /\ calculateNumberOfChunks (Num CHUNK_SIZE) = Num 1.
Proof.
  split; [vm_compute; discriminate |].
  split.
  - destruct (calculateNumberOfChunks_is_ceiling (CHUNK_SIZE + 1)) as (_ & _ & _ & _ & H).
    + vm_compute; discriminate.
    + apply H. vm_compute; discriminate.
  - destruct (calculateNumberOfChunks_is_ceiling CHUNK_SIZE) as (_ & _ & _ & H & _).
    + vm_compute; discriminate.
    + apply H. reflexivity.
Defined.

(** C8 as stated fails: a negative size is not rejected, [-1] gives [0]
    chunks. *)
Lemma calculateNumberOfChunks_accepts_negative :
  calculateNumberOfChunks (Num (-1)) = Num 0.
Proof. reflexivity. Qed.

(** C8, amended.  [calculateNumberOfChunks] has no failure mode: on a
    negative size it returns a number, the ceiling of [s / CHUNK_SIZE],
    which is at most [0]. *)
Theorem calculateNumberOfChunks_negative (s : Z) :
  s < 0 ->
  calculateNumberOfChunks (Num s) = Num (ceiling_quotient s CHUNK_SIZE)
  /\ ceiling_quotient s CHUNK_SIZE <= 0.
Proof.
  intros Hs. split; [apply calculateNumberOfChunks_ceiling |].
  assert (Hc : 0 < CHUNK_SIZE) by (rewrite CHUNK_SIZE_value; lia).
  pose proof (ceiling_quotient_spec s CHUNK_SIZE Hc). nia.
Qed.

Lemma calculateNumberOfChunks_negative_witness :
  -5 < 0 /\ calculateNumberOfChunks (Num (-5)) = Num 0.
Proof.
  split; [lia |].
  destruct (calculateNumberOfChunks_negative (-5)) as [H _]; [lia |].
  exact H.
Defined.

(** ** Partition cursor *)

Lemma top_ifn_None items : top_ifn items = None -> items = [].
Proof.
  destruct items as [|r rest]; [reflexivity |].
  cbn [top_ifn]. destruct (top_ifn rest) as [r'|]; [| discriminate].
  destruct (num_le (ifn r) (ifn r')); discriminate.
Qed.

Lemma num_le_Num a b : num_le (Num a) (Num b) = true <-> a <= b.
Proof. cbn [num_le]. apply Z.leb_le. Qed.

Lemma num_le_false_Num a b : num_le (Num a) (Num b) = false <-> b < a.
Proof. cbn [num_le]. apply Z.leb_gt. Qed.

(** On integer row numbers the descending scan starts at the greatest one. *)
Lemma top_ifn_greatest items :
  (forall r, r ∈ items -> exists z, ifn r = Num z) ->
  forall top, top_ifn items = Some top ->
  top ∈ items /\ forall r, r ∈ items -> num_le (ifn r) (ifn top) = true.
Proof.
  induction items as [|r0 rest IH]; intros Hint top Htop; [discriminate |].
  cbn [top_ifn] in Htop.
  destruct (Hint r0) as [z0 Hz0]; [left |].
  assert (Hrest : forall r, r ∈ rest -> exists z, ifn r = Num z)
    by (intros r Hr; apply Hint; now right).
  destruct (top_ifn rest) as [r'|] eqn:Hr'.
  - destruct (IH Hrest r' eq_refl) as [Hin Hmax].
    destruct (Hint r') as [z' Hz']; [now right |].
    destruct (num_le (ifn r0) (ifn r')) eqn:Hle; inversion Htop; subst top; clear Htop.
    + split; [now right |]. intros r Hr. apply elem_of_cons in Hr as [-> | Hr]; auto.
    + split; [left |]. intros r Hr. apply elem_of_cons in Hr as [-> | Hr].
      * rewrite Hz0. apply num_le_Num. lia.
      * specialize (Hmax r Hr). destruct (Hrest r Hr) as [z Hz].
        rewrite Hz, Hz0, Hz' in *.
        apply num_le_Num in Hmax. apply num_le_false_Num in Hle.
        apply num_le_Num. lia.
  - inversion Htop; subst top. apply top_ifn_None in Hr'. subst rest.
    split; [left |]. intros r Hr. apply list_elem_of_singleton in Hr as ->.
    rewrite Hz0. apply num_le_Num. lia.
Qed.

Lemma Number_toString_NaN p :
  String.eqb (Number_toString p) "NaN" = true <-> p = NaN.
Proof.
  rewrite String.eqb_eq. split; [| now intros ->].
  intros H. now apply Number_toString_inj.
Qed.

Lemma query_max_file_index_answers db p :
  p <> NaN ->
  query_max_file_index db (Number_toString p) =
  match top_ifn (filter (fun r => Number_toString (pid r) = Number_toString p)
                        (table_items db)) with
  | Some r =>
      Ok {| Count := 1;
            LastEvaluatedKey :=
              Some {| key_pid_N := Number_toString (pid r);
                      key_ifn_N := Number_toString (ifn r);
                      key_aid_S := aid r |} |}
  | None => Ok {| Count := 0; LastEvaluatedKey := None |}
  end.
Proof.
  intros Hp. unfold query_max_file_index.
  destruct (String.eqb (Number_toString p) "NaN") eqn:H; [| reflexivity].
  now apply Number_toString_NaN in H.
Qed.

Lemma getPartitionMaxProcessedFileNumber_pure p w :
  (getPartitionMaxProcessedFileNumber p w).2 = w.
Proof.
  unfold getPartitionMaxProcessedFileNumber.
  destruct (query_max_file_index _ _) as [result|e| |m]; try reflexivity.
  destruct (Count _ =? 0); [reflexivity |].
  destruct (LastEvaluatedKey _); reflexivity.
Qed.

(** The store refuses the lookup of a partition number that is not a
    number, and the lookup fails with the error of the store. *)
Lemma getPartitionMaxProcessedFileNumber_refused w :
  getPartitionMaxProcessedFileNumber NaN w = (Throw (ServiceError "dynamodb"), w).
Proof. reflexivity. Qed.

(** The cursor lookup of a number always answers: the key it reads is
    present whenever the count is not zero. *)
Lemma getPartitionMaxProcessedFileNumber_answers p w :
  p <> NaN ->
  exists cursor, getPartitionMaxProcessedFileNumber p w = (Ok cursor, w).
Proof.
  intros Hp. unfold getPartitionMaxProcessedFileNumber.
  rewrite query_max_file_index_answers by exact Hp.
  destruct (top_ifn _) as [r|]; cbn; eauto.
Qed.

Lemma cursor_answer_numeric_key p w cursor :
  (getPartitionMaxProcessedFileNumber p w).1 = Ok cursor -> p <> NaN.
Proof. intros H ->. discriminate. Qed.

Lemma cursor_lookup_integer (p : num) (w : World) :
  p <> NaN ->
  (forall r, partition_record (status_table w) p r -> exists z, ifn r = Num z) ->
  exists n,
    getPartitionMaxProcessedFileNumber p w = (Ok (Num n), w)
    /\ ((forall r, ~ partition_record (status_table w) p r) -> n = 0)
    /\ (forall r0, partition_record (status_table w) p r0 ->
        (exists r, partition_record (status_table w) p r /\ ifn r = Num n)
        /\ (forall r, partition_record (status_table w) p r ->
                      num_le (ifn r) (Num n) = true))
    /\ (partition_row_numbers_natural (status_table w) p -> 0 <= n).
Proof.
  intros Hp Hwf.
  unfold getPartitionMaxProcessedFileNumber.
  rewrite query_max_file_index_answers by exact Hp.
  set (mine := filter (fun r => Number_toString (pid r) = Number_toString p)
                      (table_items (status_table w))).
  assert (Hmine : forall r, r ∈ mine <-> partition_record (status_table w) p r).
  { intros r. unfold mine, partition_record. rewrite list_elem_of_filter.
    split; intros [H1 H2]; split; auto.
    - now apply Number_toString_inj.
    - now rewrite H2. }
  destruct (top_ifn mine) as [top|] eqn:Htop; cbn.
  - destruct (top_ifn_greatest mine) with (top := top) as [Hin Hmax]; auto.
    { intros r Hr. apply Hmine in Hr. exact (Hwf r Hr). }
    destruct (Hwf top) as (n & Hn); [now apply Hmine |].
    exists n. rewrite parseInt_toString, Hn.
    split; [reflexivity |]. split; [| split].
    + intros Hnone. exfalso. apply (Hnone top). now apply Hmine.
    + intros _ _. split.
      * exists top. split; [now apply Hmine | exact Hn].
      * intros r Hr. rewrite <- Hn. apply Hmax. now apply Hmine.
    + intros Hnat. destruct (Hnat top) as (z & Hz & Hpos); [now apply Hmine |].
      rewrite Hn in Hz. injection Hz as ->. exact Hpos.
  - exists 0. split; [reflexivity |]. split; [reflexivity |]. split; [| lia].
    intros r0 Hr0. apply Hmine in Hr0. apply top_ifn_None in Htop.
    rewrite Htop in Hr0. now apply elem_of_nil in Hr0.
Qed.

Lemma cursor_lookup_greatest (p : num) (w : World) :
  p <> NaN ->
  (forall r, partition_record (status_table w) p r ->
             exists z, ifn r = Num z /\ 0 <= z) ->
  exists n,
    getPartitionMaxProcessedFileNumber p w = (Ok (Num n), w)
    /\ 0 <= n
    /\ ((forall r, ~ partition_record (status_table w) p r) -> n = 0)
    /\ (forall r0, partition_record (status_table w) p r0 ->
        (exists r, partition_record (status_table w) p r /\ ifn r = Num n)
        /\ (forall r, partition_record (status_table w) p r ->
                      num_le (ifn r) (Num n) = true)).
Proof.
  intros Hp Hwf.
  destruct (cursor_lookup_integer p w Hp) as (n & Hn & Hnone & Hmax & Hpos).
  { intros r Hr. destruct (Hwf r Hr) as (z & Hz & _). eauto. }
  exists n. split; [exact Hn |]. split; [exact (Hpos Hwf) |]. split; assumption.
Qed.


(** ** Name resolver *)

Lemma append_length a b :
  String.length (a +:+ b) = (String.length a + String.length b)%nat.
Proof.
  induction a as [|c a IH]; [reflexivity |].
  change (String c a +:+ b) with (String c (a +:+ b)).
  cbn [String.length Nat.add]. now rewrite IH.
Qed.

(** A suffixed name is never the base name. *)
Lemma suffixed_name_differs base stamp : base +:+ "-" +:+ stamp <> base.
Proof.
  intros H. apply (f_equal String.length) in H.
  rewrite !append_length in H. cbn in H. lia.
Qed.

Lemma take_one_filter_count {A} (P : A -> Prop) `{!forall x, Decision (P x)} (l : list A) :
  negb (Z.of_nat (length (take 1 (filter P l))) =? 0) = bool_decide (Exists P l).
Proof.
  destruct (filter P l) as [|x l'] eqn:Hf.
  - cbn. symmetry. apply bool_decide_eq_false. rewrite Exists_exists.
    intros (x & Hx & HP).
    assert (Hin : x ∈ filter P l) by (apply list_elem_of_filter; auto).
    rewrite Hf in Hin. now apply elem_of_nil in Hin.
  - cbn. symmetry. apply bool_decide_eq_true. rewrite Exists_exists.
    exists x. assert (Hin : x ∈ filter P l) by (rewrite Hf; left).
    apply list_elem_of_filter in Hin. tauto.
Qed.

Lemma filenameExists_spec name w :
  filenameExists name w
  = (Ok (bool_decide (Exists (fun r => fname r = name) (table_items (status_table w)))), w).
Proof.
  unfold filenameExists, query_name_index. cbn [Count].
  now rewrite take_one_filter_count.
Qed.

Lemma is_duplicate_spec seen name w :
  is_duplicate seen name w = (Ok (bool_decide (name_taken (status_table w) seen name)), w).
Proof.
  unfold is_duplicate, name_taken.
  destruct (decide (name ∈ seen)) as [Hin|Hin].
  - rewrite (bool_decide_eq_true_2 _ Hin). unfold ret.
    now rewrite bool_decide_eq_true_2 by (now left).
  - rewrite (bool_decide_eq_false_2 _ Hin), filenameExists_spec.
    do 2 f_equal. apply bool_decide_ext. tauto.
Qed.

(** ** One iteration of the row loop *)

Section Driver.

Context (env : Env).

Lemma handler_row_skip p line st w :
  num_le (row_num line) (partitionMaxProcessedFileNumber st) = true ->
  handler_row env p line st w = (Ok st, w).
Proof. intros H. unfold handler_row. now rewrite H. Qed.

(** A row above the cursor: the name is resolved, the job is requested, and
    the item is put; either service call can end the invocation. *)
Lemma handler_row_process p line st w :
  num_le (row_num line) (partitionMaxProcessedFileNumber st) = false ->
  handler_row env p line st w =
  let name := resolvedName env (status_table w) (processed st) line in
  let w1 := submitted w (archiveid line) in
  match glacier_initiateJob env (length (glacier_calls w)) (archiveid line) with
  | None => (Throw (ServiceError "glacier"), w1)
  | Some job =>
      let item := status_item env p line name job (length (glacier_calls w1)) in
      if dynamodb_putItem_ok env item
      then (Ok {| processed := processed st ++ [name];
                  partitionMaxProcessedFileNumber := row_num line |},
            stored w1 item)
      else (Throw (ServiceError "dynamodb"), w1)
  end.
Proof.
  intros H. unfold handler_row. rewrite H.
  unfold bind at 1. rewrite is_duplicate_spec.
  unfold resolvedName. cbn zeta.
  set (base := parseFileName env (archiveid line) (archivedescription line)).
  unfold bind, initiateJob, moment, putItem, ret, status_item.
  destruct (glacier_initiateJob env _ _) as [job|]; [| reflexivity].
  destruct (decide (name_taken (status_table w) (processed st) base)) as [Ht|Ht].
  - rewrite (bool_decide_eq_true_2 _ Ht).
    destruct (dynamodb_putItem_ok env _); reflexivity.
  - rewrite (bool_decide_eq_false_2 _ Ht).
    destruct (dynamodb_putItem_ok env _); reflexivity.
Qed.

Lemma handler_loop_app p l1 l2 : forall st w,
  handler_loop env p (l1 ++ l2) st w =
  match handler_loop env p l1 st w with
  | (Ok st1, w1) => handler_loop env p l2 st1 w1
  | (Throw e, w1) => (Throw e, w1)
  | (Pending, w1) => (Pending, w1)
  | (Uncaught m, w1) => (Uncaught m, w1)
  end.
Proof.
  induction l1 as [|line l1 IH]; intros st w; [reflexivity |].
  cbn [app handler_loop]. unfold bind.
  destruct (handler_row env p line st w) as [[st'|e| |m] w']; auto.
Qed.

Lemma handler_loop_cons p line rest st w :
  handler_loop env p (line :: rest) st w =
  match handler_row env p line st w with
  | (Ok st1, w1) => handler_loop env p rest st1 w1
  | (Throw e, w1) => (Throw e, w1)
  | (Pending, w1) => (Pending, w1)
  | (Uncaught m, w1) => (Uncaught m, w1)
  end.
Proof. reflexivity. Qed.

Lemma handler_loop_one p line st w :
  handler_loop env p [line] st w = handler_row env p line st w.
Proof.
  rewrite handler_loop_cons.
  destruct (handler_row env p line st w) as [[st'|e| |m] w']; reflexivity.
Qed.

(** The row loop leaves the payload alone. *)
Lemma handler_row_payload p line st w :
  payload (handler_row env p line st w).2 = payload w.
Proof.
  destruct (num_le (row_num line) (partitionMaxProcessedFileNumber st)) eqn:H.
  - now rewrite handler_row_skip.
  - rewrite handler_row_process by exact H. cbn zeta.
    destruct (glacier_initiateJob env _ _); [| reflexivity].
    destruct (dynamodb_putItem_ok env _); reflexivity.
Qed.

Lemma handler_loop_payload p lines : forall st w,
  payload (handler_loop env p lines st w).2 = payload w.
Proof.
  induction lines as [|line rest IH]; intros st w; [reflexivity |].
  rewrite handler_loop_cons.
  pose proof (handler_row_payload p line st w) as Hrow.
  destruct (handler_row env p line st w) as [[st'|e| |m] w']; cbn in Hrow |- *;
    [rewrite IH |..]; exact Hrow.
Qed.

End Driver.

(** ** Skipping the rows at or below the cursor *)

Section Skip.

Context (env : Env).

Lemma row_numbers_kept_numeric_cons line rest :
  row_numbers_kept_numeric env (line :: rest) ->
  (row_num line <> NaN \/ rejects_NaN env) /\ row_numbers_kept_numeric env rest.
Proof.
  intros [H|H]; [| split; right; exact H].
  apply Forall_cons in H as [H1 H2]. split; left; assumption.
Qed.

(** An integer cursor stays an integer and never decreases. *)
Lemma handler_row_cursor p line st w st1 w1 c :
  row_num line <> NaN \/ rejects_NaN env ->
  handler_row env p line st w = (Ok st1, w1) ->
  partitionMaxProcessedFileNumber st = Num c ->
  exists c1, partitionMaxProcessedFileNumber st1 = Num c1 /\ c <= c1.
Proof.
  intros Hnum Hrow Hc.
  destruct (num_le (row_num line) (partitionMaxProcessedFileNumber st)) eqn:Hle.
  - rewrite handler_row_skip in Hrow by exact Hle.
    inversion Hrow; subst. exists c. split; [exact Hc | lia].
  - rewrite handler_row_process in Hrow by exact Hle. cbn zeta in Hrow.
    destruct (glacier_initiateJob env _ _) as [job|]; [| discriminate].
    destruct (dynamodb_putItem_ok env _) eqn:Hput; [| discriminate].
    inversion Hrow; subst st1 w1; clear Hrow. cbn.
    destruct (row_num line) as [i|] eqn:Hi.
    + rewrite Hc in Hle. apply num_le_false_Num in Hle.
      exists i. split; [reflexivity | lia].
    + exfalso. destruct Hnum as [Hnum|Hrej]; [now apply Hnum |].
      apply Hrej in Hput as [Hifn _]. apply Hifn. cbn. exact Hi.
Qed.

Lemma handler_loop_cursor p lines : forall st w st1 w1 c,
  row_numbers_kept_numeric env lines ->
  handler_loop env p lines st w = (Ok st1, w1) ->
  partitionMaxProcessedFileNumber st = Num c ->
  exists c1, partitionMaxProcessedFileNumber st1 = Num c1 /\ c <= c1.
Proof.
  induction lines as [|line rest IH]; intros st w st1 w1 c Hnum Hloop Hc.
  - inversion Hloop; subst. exists c. split; [exact Hc | lia].
  - apply row_numbers_kept_numeric_cons in Hnum as [Hline Hrest].
    rewrite handler_loop_cons in Hloop.
    destruct (handler_row env p line st w) as [[st'|e| |m] w'] eqn:Hrow;
      try discriminate.
    destruct (handler_row_cursor _ _ _ _ _ _ _ Hline Hrow Hc) as (c' & Hc' & Hle).
    destruct (IH _ _ _ _ _ Hrest Hloop Hc') as (c1 & Hc1 & Hle1).
    exists c1. split; [exact Hc1 | lia].
Qed.

(** C2. A row whose row number is at or below the cursor read at the start
    of the invocation has no effect at all: the loop run through that row
    ends in the same state of the world (status table, submitted jobs,
    payload) and with the same result as the run that stops before it, and
    the whole run is the run of the inventory without that row.  The rows
    before it carry integer row numbers, or the store refuses a row number
    that is not a number. *)
Theorem skipped_row_has_no_effect (p cursor : num) (pre post : list Line)
    (line : Line) (w : World) :
  row_numbers_kept_numeric env pre ->
  num_le (row_num line) cursor = true ->
  handler_loop env p (pre ++ [line]) (loop_start cursor) w
    = handler_loop env p pre (loop_start cursor) w
  /\ handler_loop env p (pre ++ line :: post) (loop_start cursor) w
    = handler_loop env p (pre ++ post) (loop_start cursor) w.
Proof.
  intros Hnum Hle.
  destruct cursor as [c|]; [| destruct (row_num line); discriminate].
  destruct (row_num line) as [i|] eqn:Hi; [| discriminate].
  apply num_le_Num in Hle.
  assert (Hskip : forall st1 w1,
             handler_loop env p pre (loop_start (Num c)) w = (Ok st1, w1) ->
             handler_row env p line st1 w1 = (Ok st1, w1)).
  { intros st1 w1 Hpre.
    destruct (handler_loop_cursor _ _ _ _ _ _ c Hnum Hpre eq_refl) as (c1 & Hc1 & Hc).
    apply handler_row_skip. rewrite Hi, Hc1. apply num_le_Num. lia. }
  split.
  - rewrite handler_loop_app.
    destruct (handler_loop env p pre (loop_start (Num c)) w) as [[st1|e| |m] w1] eqn:Hpre;
      try reflexivity.
    rewrite handler_loop_one. now apply Hskip.
  - rewrite !handler_loop_app.
    destruct (handler_loop env p pre (loop_start (Num c)) w) as [[st1|e| |m] w1] eqn:Hpre;
      try reflexivity.
    rewrite handler_loop_cons, (Hskip _ _ eq_refl). reflexivity.
Qed.

End Skip.

(** ** Inventory reader *)

Lemma athena_wait_fails pre State rest :
  Forall (fun s => s = "QUEUED" \/ s = "RUNNING") pre ->
  State ∉ ["QUEUED"; "RUNNING"; "SUCCEEDED"] ->
  athena_wait (pre ++ State :: rest) = Throw AthenaException.
Proof.
  intros Hpre Hterminal. induction Hpre as [|s pre [-> | ->] _ IH]; cbn [app athena_wait].
  - now rewrite (bool_decide_eq_false_2 _ Hterminal).
  - exact IH.
  - exact IH.
Qed.


(** The poll loop never returns while the query stays queued or running. *)
Lemma athena_wait_pending states :
  Forall (fun s => s = "QUEUED" \/ s = "RUNNING") states ->
  athena_wait states = Pending.
Proof.
  intros H. induction H as [|s states [-> | ->] _ IH]; cbn [athena_wait];
    [reflexivity | exact IH | exact IH].
Qed.

(** The rows delivered first are pushed, whatever follows. *)
Lemma csv_promise_rows rows tail : forall lines,
  csv_promise ((EvData <$> rows) ++ tail) lines
  = csv_promise tail (lines ++ (on_data <$> rows)).
Proof.
  induction rows as [|data rows IH]; intros lines.
  - cbn. now rewrite app_nil_r.
  - cbn [fmap list_fmap app csv_promise]. rewrite IH.
    now rewrite <- app_assoc.
Qed.

(** ** The invocation as a whole *)

Section Invocation.

Context (env : Env).

(** What [handler] does once [nextPartition] is read. *)
Lemma handler_unfold w p :
  payload w !! "nextPartition" = Some p ->
  handler env w =
  match getPartitionMaxProcessedFileNumber p w with
  | (Ok cursor, _) =>
      match athena_wait (athena_states env) with
      | Ok _ =>
          match csv_promise (s3_csv_events env (results_key env)) [] with
          | Ok lines =>
              match handler_loop env p lines (loop_start cursor) w with
              | (Ok _, w1) =>
                  (Ok (<["nextPartition" := num_succ p]> (payload w1)),
                   {| status_table := status_table w1;
                      glacier_calls := glacier_calls w1;
                      payload := <["nextPartition" := num_succ p]> (payload w1) |})
              | (Throw e, w1) => (Throw e, w1)
              | (Pending, w1) => (Pending, w1)
              | (Uncaught m, w1) => (Uncaught m, w1)
              end
          | Throw e => (Throw e, w)
          | Pending => (Pending, w)
          | Uncaught m => (Uncaught m, w)
          end
      | Throw e => (Throw e, w)
      | Pending => (Pending, w)
      | Uncaught m => (Uncaught m, w)
      end
  | (Throw e, _) => (Throw e, w)
  | (Pending, _) => (Pending, w)
  | (Uncaught m, _) => (Uncaught m, w)
  end.
Proof.
  intros Hp. unfold handler. rewrite Hp.
  unfold bind at 1.
  pose proof (getPartitionMaxProcessedFileNumber_pure p w) as Hw.
  destruct (getPartitionMaxProcessedFileNumber p w) as [[cursor|e| |m] w0];
    cbn in Hw; subst w0; try reflexivity.
  unfold bind at 1. unfold readAthenaPartition.
  destruct (athena_wait (athena_states env)) as [[]|e| |m]; reflexivity.
Qed.

(** C3. When the query execution ends in a state other than SUCCEEDED
    (FAILED, CANCELLED, ...), the invocation fails with the Athena
    exception and leaves everything as it was: no status record is created,
    no job is submitted and the payload, so its [nextPartition], is not
    touched.  (On a payload whose [nextPartition] is missing or not a
    number the invocation has failed before the query, in the same way.) *)
Theorem failed_query_fails_invocation (w : World) (pre rest : list string)
    (State : string) :
  athena_states env = (pre ++ State :: rest)%list ->
  Forall (fun s => s = "QUEUED" \/ s = "RUNNING") pre ->
  State ∉ ["QUEUED"; "RUNNING"; "SUCCEEDED"] ->
  exists e,
    handler env w = (Throw e, w)
    /\ (forall p, payload w !! "nextPartition" = Some p -> p <> NaN ->
                  e = AthenaException)
    /\ (payload w !! "nextPartition" = Some NaN -> e = ServiceError "dynamodb")
    /\ (payload w !! "nextPartition" = None -> e = TypeError).
Proof.
  intros Hstates Hpre Hterminal.
  destruct (payload w !! "nextPartition") as [p|] eqn:Hp.
  - destruct (decide (p = NaN)) as [-> | Hnum].
    + exists (ServiceError "dynamodb"). split.
      * now rewrite (handler_unfold w NaN Hp), getPartitionMaxProcessedFileNumber_refused.
      * split; [| split; [reflexivity | discriminate]].
        intros p [= <-] Hne. contradiction.
    + exists AthenaException. split; [| split; [reflexivity |]].
      * rewrite (handler_unfold w p Hp).
        destruct (getPartitionMaxProcessedFileNumber_answers p w Hnum) as [cursor ->].
        now rewrite Hstates, athena_wait_fails.
      * split; [| discriminate]. intros [= ->]. contradiction.
  - exists TypeError. split.
    + unfold handler. now rewrite Hp.
    + split; [discriminate | split; [discriminate | reflexivity]].
Qed.

(** C5. A successful invocation returns the caller's payload object with
    [nextPartition] set to the processed partition plus one and every other
    field, [maxPartition] among them, as it was. *)
Theorem handler_returns_next_partition (w w' : World) (result : gmap string num) :
  handler env w = (Ok result, w') ->
  exists p,
    payload w !! "nextPartition" = Some p
    /\ result !! "nextPartition" = Some (num_succ p)
    /\ (forall field, field <> "nextPartition" ->
                      result !! field = payload w !! field)
    /\ result !! "maxPartition" = payload w !! "maxPartition"
    /\ payload w' = result.
Proof.
  intros Hrun.
  destruct (payload w !! "nextPartition") as [p|] eqn:Hp;
    [| unfold handler in Hrun; rewrite Hp in Hrun; discriminate].
  rewrite (handler_unfold w p Hp) in Hrun.
  destruct (getPartitionMaxProcessedFileNumber p w) as [[cursor|e| |m] w0];
    try discriminate.
  destruct (athena_wait _) as [[]|e| |m]; try discriminate.
  destruct (csv_promise _ _) as [lines|e| |m]; try discriminate.
  pose proof (handler_loop_payload env p lines (loop_start cursor) w) as Hframe.
  destruct (handler_loop env p lines (loop_start cursor) w) as [[st|e| |m] w1];
    try discriminate.
  cbn in Hframe. rewrite Hframe in Hrun.
  inversion Hrun; subst result w'; clear Hrun.
  exists p. split; [reflexivity |]. split; [apply lookup_insert_eq |].
  split; [intros field Hne; now apply lookup_insert_ne |].
  split; [now apply lookup_insert_ne | reflexivity].
Qed.

(** The invocation does complete when the query succeeds, the result stream
    ends and both services accept every call. *)
Lemma handler_completes w p lines :
  payload w !! "nextPartition" = Some p ->
  p <> NaN ->
  athena_wait (athena_states env) = Ok tt ->
  csv_promise (s3_csv_events env (results_key env)) [] = Ok lines ->
  (forall n a, glacier_initiateJob env n a <> None) ->
  (forall r, dynamodb_putItem_ok env r = true) ->
  exists w', handler env w = (Ok (<["nextPartition" := num_succ p]> (payload w)), w').
Proof.
  intros Hp Hnum Hq Hcsv Hjob Hput.
  rewrite (handler_unfold w p Hp).
  destruct (getPartitionMaxProcessedFileNumber_answers p w Hnum) as [cursor ->].
  rewrite Hq, Hcsv.
  assert (Hloop : forall ls st w0, exists st1 w1,
             handler_loop env p ls st w0 = (Ok st1, w1)).
  { induction ls as [|line rest IH]; intros st w0; [cbn; eauto |].
    rewrite handler_loop_cons.
    destruct (num_le (row_num line) (partitionMaxProcessedFileNumber st)) eqn:Hle.
    - rewrite handler_row_skip by exact Hle. apply IH.
    - rewrite handler_row_process by exact Hle. cbn zeta.
      destruct (glacier_initiateJob env _ _) as [job|] eqn:Hj; [| now apply Hjob in Hj].
      rewrite Hput. apply IH. }
  pose proof (handler_loop_payload env p lines (loop_start cursor) w) as Hframe.
  destruct (Hloop lines (loop_start cursor) w) as (st1 & w1 & Hrun).
  rewrite Hrun in Hframe |- *. cbn in Hframe. rewrite Hframe. eauto.
Qed.

End Invocation.

(** ** Resolved names *)

Section Names.

Context (env : Env).

(** C6. For every row the loop processes, the name recorded (in the status
    record and in the in-memory list) is the base name of [parseFileName],
    with ["-" + creationdate] appended exactly when the base name is in the
    list of names assigned earlier in the run or a persisted record carries
    it. *)
Theorem resolved_name_recorded (p : num) (pre : list Line) (line : Line)
    (st0 st1 : LoopState) (w0 w1 : World) (job : string) :
  handler_loop env p pre st0 w0 = (Ok st1, w1) ->
  num_le (row_num line) (partitionMaxProcessedFileNumber st1) = false ->
  glacier_initiateJob env (length (glacier_calls w1)) (archiveid line) = Some job ->
  let base := parseFileName env (archiveid line) (archivedescription line) in
  let name :=
    if decide (base ∈ processed st1
               \/ Exists (fun r => fname r = base) (table_items (status_table w1)))
    then base +:+ "-" +:+ creationdate line
    else base in
  let item := status_item env p line name job (S (length (glacier_calls w1))) in
  dynamodb_putItem_ok env item = true ->
  handler_loop env p (pre ++ [line]) st0 w0
    = (Ok {| processed := processed st1 ++ [name];
             partitionMaxProcessedFileNumber := row_num line |},
       stored (submitted w1 (archiveid line)) item)
  /\ status_table (stored (submitted w1 (archiveid line)) item) !! archiveid line
     = Some item
  /\ fname item = name.
Proof.
  intros Hpre Hle Hjob base name item Hput.
  split; [| split; [apply lookup_insert_eq | reflexivity]].
  rewrite handler_loop_app, Hpre, handler_loop_one.
  rewrite handler_row_process by exact Hle. cbn zeta. rewrite Hjob.
  assert (Hlen : length (glacier_calls (submitted w1 (archiveid line)))
                 = S (length (glacier_calls w1))).
  { cbn. rewrite length_app. cbn. lia. }
  rewrite Hlen.
  change (resolvedName env (status_table w1) (processed st1) line) with name.
  fold item. now rewrite Hput.
Qed.

(** C7, amended.  When the record of a row is written, its name differs
    from the name of every record then in the table that carries the row's
    base name, and from the base name if a name assigned earlier in the run
    is that base name; a name written without suffix differs from the name
    of every record then in the table and from every name assigned earlier
    in the run.  (A suffixed name is not compared with the names in use.) *)
Theorem written_name_avoids_base (p : num) (line : Line) (st1 st2 : LoopState)
    (w1 w2 : World) :
  num_le (row_num line) (partitionMaxProcessedFileNumber st1) = false ->
  handler_row env p line st1 w1 = (Ok st2, w2) ->
  let base := parseFileName env (archiveid line) (archivedescription line) in
  exists written,
    status_table w2 !! archiveid line = Some written
    /\ processed st2 = (processed st1 ++ [fname written])%list
    /\ (forall existing, existing ∈ table_items (status_table w1) ->
                         fname existing = base -> fname written <> fname existing)
    /\ (base ∈ processed st1 -> fname written <> base)
    /\ (fname written = base ->
        (forall existing, existing ∈ table_items (status_table w1) ->
                          fname written <> fname existing)
        /\ fname written ∉ processed st1).
Proof.
  intros Hle Hrow base.
  rewrite handler_row_process in Hrow by exact Hle. cbn zeta in Hrow.
  destruct (glacier_initiateJob env _ _) as [job|]; [| discriminate].
  destruct (dynamodb_putItem_ok env _); [| discriminate].
  inversion Hrow; subst st2 w2; clear Hrow.
  eexists. split; [apply lookup_insert_eq |].
  cbn [fname status_item processed].
  unfold resolvedName. fold base.
  destruct (decide (name_taken (status_table w1) (processed st1) base)) as [Ht|Ht].
  - split; [reflexivity |]. split; [| split].
    + intros existing _ ->. apply suffixed_name_differs.
    + intros _. apply suffixed_name_differs.
    + intros Heq. now apply suffixed_name_differs in Heq.
  - split; [reflexivity |]. unfold name_taken in Ht. rewrite Exists_exists in Ht.
    split; [| split].
    + intros existing Hin Heq _. apply Ht. right. eauto.
    + intros Hin _. apply Ht. now left.
    + intros _. split.
      * intros existing Hin Heq. apply Ht. right. eauto.
      * intros Hin. apply Ht. now left.
Qed.

End Names.

(** ** Malformed rows and the result stream *)

Section Anomalies.

Context (env : Env).


(** The stream cannot make the promise fail, and only ['end'] fulfils
    it. *)
Lemma csv_promise_not_rejected events : forall lines e,
  csv_promise events lines <> Throw e.
Proof.
  induction events as [|[data| |message] rest IH]; intros lines e; cbn;
    [discriminate | apply IH | discriminate | discriminate].
Qed.

Lemma csv_promise_resolved_by_end events : forall lines result,
  csv_promise events lines = Ok result -> EvEnd ∈ events.
Proof.
  induction events as [|[data| |message] rest IH]; intros lines result H; cbn in H.
  - discriminate.
  - right. exact (IH _ _ H).
  - left.
  - discriminate.
Qed.

(** C10, amended.  The promise of [readResultsCSV] is never rejected and the
    call changes nothing: only the ['end'] event fulfils it, with the
    coerced rows delivered before; on a stream that delivers rows and
    neither ['end'] nor ['error'] it never settles, and the invocation that
    awaits it never settles either; an ['error'] event, for which no
    listener is registered, is an uncaught exception that ends the process,
    so the invocation then fails instead of hanging. *)
Theorem readResultsCSV_never_rejects (key : string) (w : World) :
  (readResultsCSV env key w).2 = w
  /\ (forall e, (readResultsCSV env key w).1 <> Throw e)
  /\ (forall lines, (readResultsCSV env key w).1 = Ok lines ->
                    EvEnd ∈ s3_csv_events env key)
  /\ (forall rows rest,
        s3_csv_events env key = ((EvData <$> rows) ++ EvEnd :: rest)%list ->
        (readResultsCSV env key w).1 = Ok (on_data <$> rows))
  /\ (forall rows,
        s3_csv_events env key = EvData <$> rows ->
        (readResultsCSV env key w).1 = Pending)
  /\ (forall rows message rest,
        s3_csv_events env key = ((EvData <$> rows) ++ EvError message :: rest)%list ->
        (readResultsCSV env key w).1 = Uncaught message)
  /\ (forall p,
        key = results_key env ->
        payload w !! "nextPartition" = Some p -> p <> NaN ->
        athena_wait (athena_states env) = Ok tt ->
        (forall rows,
           s3_csv_events env key = EvData <$> rows ->
           handler env w = (Pending, w))
        /\ (forall rows message rest,
              s3_csv_events env key
              = ((EvData <$> rows) ++ EvError message :: rest)%list ->
              handler env w = (Uncaught message, w))).
Proof.
  unfold readResultsCSV. cbn [fst snd].
  split; [reflexivity |].
  split; [apply csv_promise_not_rejected |].
  split; [apply csv_promise_resolved_by_end |].
  assert (Hend : forall rows rest,
             csv_promise ((EvData <$> rows) ++ EvEnd :: rest) [] = Ok (on_data <$> rows))
    by (intros; now rewrite csv_promise_rows).
  assert (Hnone : forall rows, csv_promise (EvData <$> rows) [] = Pending).
  { intros rows. rewrite <- (app_nil_r (EvData <$> rows)). now rewrite csv_promise_rows. }
  assert (Herr : forall rows message rest,
             csv_promise ((EvData <$> rows) ++ EvError message :: rest) []
             = Uncaught message)
    by (intros; now rewrite csv_promise_rows).
  split; [intros rows rest ->; apply Hend |].
  split; [intros rows ->; apply Hnone |].
  split; [intros rows message rest ->; apply Herr |].
  intros p -> Hp Hnum Hq.
  rewrite (handler_unfold env w p Hp).
  destruct (getPartitionMaxProcessedFileNumber_answers p w Hnum) as [cursor ->].
  rewrite Hq. split.
  - intros rows ->. now rewrite Hnone.
  - intros rows message rest ->. now rewrite Herr.
Qed.

End Anomalies.

(** ** The row numbers in the table

    The invocation writes positive integer row numbers only, so the
    assumption under which the cursor is a non-negative integer holds of
    every table the handler alone has filled. *)

Lemma table_items_insert (db : gmap string StatusRecord) k v r :
  r ∈ table_items (<[k:=v]> db) -> r = v \/ r ∈ table_items db.
Proof.
  unfold table_items. rewrite !list_elem_of_fmap.
  intros ([k' r'] & -> & Hin). apply elem_of_map_to_list in Hin.
  apply lookup_insert_Some in Hin as [[_ <-] | [_ Hin]]; [now left |].
  right. exists (k', r'). split; [reflexivity |]. now apply elem_of_map_to_list.
Qed.

Section RowNumbers.

Context (env : Env).

Lemma handler_row_positive p line st w c :
  row_num line <> NaN \/ rejects_NaN env ->
  partitionMaxProcessedFileNumber st = Num c -> 0 <= c ->
  row_numbers_positive (status_table w) ->
  row_numbers_positive (status_table (handler_row env p line st w).2).
Proof.
  intros Hnum Hc Hpos Hinv.
  destruct (num_le (row_num line) (partitionMaxProcessedFileNumber st)) eqn:Hle.
  - now rewrite handler_row_skip.
  - rewrite handler_row_process by exact Hle. cbn zeta.
    destruct (glacier_initiateJob env _ _) as [job|]; [| exact Hinv].
    destruct (dynamodb_putItem_ok env _) eqn:Hput; [| exact Hinv].
    intros r Hr. apply table_items_insert in Hr as [-> | Hr]; [| now apply Hinv].
    cbn [ifn status_item].
    destruct (row_num line) as [i|] eqn:Hi.
    + rewrite Hc in Hle. apply num_le_false_Num in Hle. exists i. split; [reflexivity | lia].
    + exfalso. destruct Hnum as [Hnum|Hrej]; [now apply Hnum |].
      apply Hrej in Hput as [Hifn _]. apply Hifn. cbn. exact Hi.
Qed.

Lemma handler_loop_positive p lines : forall st w c,
  row_numbers_kept_numeric env lines ->
  partitionMaxProcessedFileNumber st = Num c -> 0 <= c ->
  row_numbers_positive (status_table w) ->
  row_numbers_positive (status_table (handler_loop env p lines st w).2).
Proof.
  induction lines as [|line rest IH]; intros st w c Hnum Hc Hpos Hinv; [exact Hinv |].
  apply row_numbers_kept_numeric_cons in Hnum as [Hline Hrest].
  rewrite handler_loop_cons.
  pose proof (handler_row_positive p line st w c Hline Hc Hpos Hinv) as Hrow.
  destruct (handler_row env p line st w) as [[st'|e| |m] w'] eqn:Hrun; try exact Hrow.
  destruct (handler_row_cursor env _ _ _ _ _ _ _ Hline Hrun Hc) as (c' & Hc' & Hle).
  apply (IH st' w' c'); auto. lia.
Qed.

(** An invocation keeps the row numbers of the table positive integers. *)
Lemma handler_keeps_row_numbers_positive w :
  rejects_NaN env ->
  row_numbers_positive (status_table w) ->
  row_numbers_positive (status_table (handler env w).2).
Proof.
  intros Hrej Hinv.
  destruct (payload w !! "nextPartition") as [p|] eqn:Hp;
    [| unfold handler; now rewrite Hp].
  rewrite (handler_unfold env w p Hp).
  destruct (decide (p = NaN)) as [-> | Hnum];
    [now rewrite getPartitionMaxProcessedFileNumber_refused |].
  destruct (cursor_lookup_greatest p w Hnum) as (n & -> & Hn & _).
  { intros r [Hr _]. destruct (Hinv r Hr) as (z & Hz & Hpos). exists z. split; [exact Hz | lia]. }
  destruct (athena_wait _) as [[]|e| |m]; try exact Hinv.
  destruct (csv_promise _ _) as [lines|e| |m]; try exact Hinv.
  pose proof (handler_loop_positive p lines (loop_start (Num n)) w n
                (or_intror Hrej) eq_refl Hn Hinv) as Hloop.
  destruct (handler_loop env p lines (loop_start (Num n)) w) as [[st|e| |m] w1];
    exact Hloop.
Qed.

End RowNumbers.

(** ** Worked runs *)

Lemma typed_store_rejects_NaN states events :
  rejects_NaN (sample_env states events).
Proof.
  intros r H. cbn in H. unfold typed_store in H.
  destruct (ifn r), (pid r), (sz r), (cc r), (rc r); cbn in H; try discriminate;
    repeat split; discriminate.
Qed.

Lemma not_elem_of_states (State : string) (l : list string) :
  bool_decide (State ∈ l) = false -> State ∉ l.
Proof. apply bool_decide_eq_false_1. Qed.

(** The run the specification describes: rows (1,100) and (2,100) of
    partition 7, nothing processed before. *)
Example handler_two_rows :
  handler (sample_env succeeded two_rows) (sample_world [])
  = (Ok (payload two_rows_done), two_rows_done).
Proof. vm_compute. reflexivity. Qed.

Lemma skipped_row_has_no_effect_witness :
  let env := sample_env succeeded three_photos in
  let w := sample_world [sample_record "a0" 2 7 "old"] in
  let start := loop_start (Num 2) in
  handler_loop env (Num 7) ([photo_line "1" "a1"] ++ [photo_line "2" "a2"]) start w
    = handler_loop env (Num 7) [photo_line "1" "a1"] start w
  /\ handler_loop env (Num 7)
       ([photo_line "1" "a1"] ++ photo_line "2" "a2" :: [photo_line "3" "a3"]) start w
    = handler_loop env (Num 7) ([photo_line "1" "a1"] ++ [photo_line "3" "a3"]) start w.
Proof.
  apply skipped_row_has_no_effect.
  - left. repeat constructor. discriminate.
  - reflexivity.
Defined.

Lemma failed_query_fails_invocation_witness :
  let env := sample_env ["QUEUED"; "RUNNING"; "FAILED"] two_rows in
  let w := sample_world [] in
  handler env w = (Throw AthenaException, w).
Proof.
  intros env w.
  destruct (failed_query_fails_invocation env w ["QUEUED"; "RUNNING"] [] "FAILED")
    as (e & Hrun & Hathena & _).
  - reflexivity.
  - apply Forall_cons_2; [auto | apply Forall_cons_2; [auto | apply Forall_nil_2]].
  - apply not_elem_of_states. vm_compute. reflexivity.
  - rewrite Hrun. rewrite (Hathena (Num 7)); [reflexivity | reflexivity | discriminate].
Defined.



Example cursor_of_partition_7 :
  let w := sample_world [sample_record "a1" 1 7 "photo";
                         sample_record "a2" 4 7 "video";
                         sample_record "b1" 9 8 "notes"] in
  getPartitionMaxProcessedFileNumber (Num 7) w = (Ok (Num 4), w).
Proof. vm_compute. reflexivity. Qed.

Lemma handler_returns_next_partition_witness :
  let env := sample_env succeeded two_rows in
  let w := sample_world [] in
  handler env w = (Ok (payload two_rows_done), two_rows_done)
  /\ exists p,
      payload w !! "nextPartition" = Some p
      /\ payload two_rows_done !! "nextPartition" = Some (num_succ p)
      /\ (forall field, field <> "nextPartition" ->
                        payload two_rows_done !! field = payload w !! field)
      /\ payload two_rows_done !! "maxPartition" = payload w !! "maxPartition"
      /\ payload two_rows_done = payload two_rows_done.
Proof.
  intros env w.
  assert (H : handler env w = (Ok (payload two_rows_done), two_rows_done))
    by (vm_compute; reflexivity).
  split; [exact H |].
  exact (handler_returns_next_partition env w two_rows_done (payload two_rows_done) H).
Defined.

Lemma resolved_name_recorded_witness :
  let env := sample_env succeeded three_photos in
  let w0 := sample_world [] in
  let w1 := first_photo_done env w0 in
  let item := status_item env (Num 7) (photo_line "2" "a2") "photo-2019" "job-a2" 2 in
  handler_loop env (Num 7) ([photo_line "1" "a1"] ++ [photo_line "2" "a2"])
               (loop_start (Num 0)) w0
    = (Ok {| processed := ["photo"; "photo-2019"];
             partitionMaxProcessedFileNumber := Num 2 |},
       stored (submitted w1 "a2") item)
  /\ status_table (stored (submitted w1 "a2") item) !! "a2" = Some item
  /\ fname item = "photo-2019".
Proof.
  intros env w0 w1 item.
  exact (resolved_name_recorded env (Num 7) [photo_line "1" "a1"] (photo_line "2" "a2")
           (loop_start (Num 0))
           {| processed := ["photo"]; partitionMaxProcessedFileNumber := Num 1 |}
           w0 w1 "job-a2" eq_refl eq_refl eq_refl eq_refl).
Defined.

(** C7 as stated fails: of three archives with the same base name and
    creation date, the third is written with the name the second already
    carries. *)
Lemma third_duplicate_repeats_name :
  ~ names_unique_when_written (sample_env succeeded three_photos) (Num 7) (Num 0)
      (on_data <$> rows_before_end three_photos) (sample_world []).
Proof.
  intros Hunique.
  set (env := sample_env succeeded three_photos).
  set (w1 := first_photo_done env (sample_world [])).
  set (item2 := status_item env (Num 7) (photo_line "2" "a2") "photo-2019" "job-a2" 2).
  set (item3 := status_item env (Num 7) (photo_line "3" "a3") "photo-2019" "job-a3" 3).
  apply (Hunique [photo_line "1" "a1"; photo_line "2" "a2"] (photo_line "3" "a3") []
           {| processed := ["photo"; "photo-2019"];
              partitionMaxProcessedFileNumber := Num 2 |}
           (stored (submitted w1 "a2") item2)
           {| processed := ["photo"; "photo-2019"; "photo-2019"];
              partitionMaxProcessedFileNumber := Num 3 |}
           (stored (submitted (stored (submitted w1 "a2") item2) "a3") item3)
           item2 item3).
  - reflexivity.
  - vm_compute. reflexivity.
  - reflexivity.
  - vm_compute. reflexivity.
  - apply list_elem_of_fmap. exists ("a2", item2). split; [reflexivity |].
    apply elem_of_map_to_list. apply lookup_insert_eq.
  - apply lookup_insert_eq.
  - reflexivity.
Qed.

Lemma written_name_avoids_base_witness :
  let env := sample_env succeeded three_photos in
  let w1 := first_photo_done env (sample_world []) in
  let st1 := {| processed := ["photo"]; partitionMaxProcessedFileNumber := Num 1 |} in
  let item := status_item env (Num 7) (photo_line "2" "a2") "photo-2019" "job-a2" 2 in
  exists written,
    status_table (stored (submitted w1 "a2") item) !! "a2" = Some written
    /\ ["photo"; "photo-2019"] = (processed st1 ++ [fname written])%list
    /\ (forall existing, existing ∈ table_items (status_table w1) ->
                         fname existing = "photo" -> fname written <> fname existing)
    /\ ("photo" ∈ processed st1 -> fname written <> "photo")
    /\ (fname written = "photo" ->
        (forall existing, existing ∈ table_items (status_table w1) ->
                          fname written <> fname existing)
        /\ fname written ∉ processed st1).
Proof.
  intros env w1 st1 item.
  assert (Hrow : handler_row env (Num 7) (photo_line "2" "a2") st1 w1
                 = (Ok {| processed := ["photo"; "photo-2019"];
                          partitionMaxProcessedFileNumber := Num 2 |},
                    stored (submitted w1 "a2") item))
    by (vm_compute; reflexivity).
  exact (written_name_avoids_base env (Num 7) (photo_line "2" "a2") st1 _ w1 _
           eq_refl Hrow).
Defined.



(** C10 as stated fails: when the result stream fails, the invocation does
    not hang; the ['error'] event, which nothing listens for, ends the
    process. *)
Lemma stream_error_ends_invocation :
  let env := sample_env succeeded
               [EvData (csv_row "1" "100" "a1" "photo" "2019");
                EvError "socket hang up"] in
  let w := sample_world [] in
  (readResultsCSV env (results_key env) w).1 = Uncaught "socket hang up"
  /\ handler env w = (Uncaught "socket hang up", w)
  /\ handler env w <> (Pending, w).
Proof. split; [reflexivity | split; [vm_compute; reflexivity | vm_compute; discriminate]]. Qed.

Lemma readResultsCSV_never_rejects_witness :
  let env := sample_env succeeded [EvData (csv_row "1" "100" "a1" "photo" "2019")] in
  let w := sample_world [] in
  (readResultsCSV env (results_key env) w).1 = Pending
  /\ handler env w = (Pending, w).
Proof.
  intros env w.
  destruct (readResultsCSV_never_rejects env (results_key env) w)
    as (_ & _ & _ & _ & Hpending & _ & Hhandler).
  split.
  - exact (Hpending [csv_row "1" "100" "a1" "photo" "2019"] eq_refl).
  - destruct (Hhandler (Num 7) eq_refl eq_refl) as [Hhang _];
      [discriminate | reflexivity |].
    exact (Hhang [csv_row "1" "100" "a1" "photo" "2019"] eq_refl).
Defined.

(** * Further properties of the retrieval handler *)

(** ** The poll loop *)


Lemma athena_wait_Pending_inv states :
  athena_wait states = Pending -> Forall polling states.
Proof.
  induction states as [|State states IH]; [constructor |].
  cbn [athena_wait]. destruct (decide (State ∈ ["QUEUED"; "RUNNING"; "SUCCEEDED"])) as [Hin|Hin].
  - rewrite (bool_decide_eq_true_2 _ Hin). cbn [negb].
    destruct (String.eqb_spec State "SUCCEEDED") as [-> | Hne]; [discriminate |].
    intros H. constructor; [| now apply IH].
    apply elem_of_cons in Hin as [-> | Hin]; [now left |].
    apply elem_of_cons in Hin as [-> | Hin]; [now right |].
    apply list_elem_of_singleton in Hin. contradiction.
  - rewrite (bool_decide_eq_false_2 _ Hin). discriminate.
Qed.

Section Polling.

Context (env : Env).


(** X2. The poll loop has no bound: [readAthenaPartition] never settles
    exactly when every answer of [getQueryExecution] is QUEUED or
    RUNNING. *)
Theorem readAthenaPartition_waits_iff (partNumber : num) (w : World) :
  readAthenaPartition env partNumber w = (Pending, w)
  <-> Forall polling (athena_states env).
Proof.
  unfold readAthenaPartition. split.
  - intros H. apply athena_wait_Pending_inv.
    destruct (athena_wait (athena_states env)) as [[]|e| |m];
      try discriminate; reflexivity.
  - intros H. now rewrite athena_wait_pending.
Qed.

End Polling.

(** ** What an invocation leaves behind *)

Lemma elem_of_table_items (db : gmap string StatusRecord) r :
  r ∈ table_items db <-> exists k, db !! k = Some r.
Proof.
  unfold table_items. rewrite list_elem_of_fmap. split.
  - intros ([k r'] & -> & Hin). exists k. now apply elem_of_map_to_list.
  - intros [k Hk]. exists (k, r). split; [reflexivity |]. now apply elem_of_map_to_list.
Qed.

Section Footprint.

Context (env : Env).

Lemma handler_row_footprint p line st w :
  let w' := (handler_row env p line st w).2 in
  dom (status_table w) ⊆ dom (status_table w')
  /\ glacier_calls w `prefix_of` glacier_calls w'
  /\ (forall r, r ∈ table_items (status_table w') ->
                r ∈ table_items (status_table w) \/ written_for p r).
Proof.
  destruct (num_le (row_num line) (partitionMaxProcessedFileNumber st)) eqn:Hle.
  - rewrite handler_row_skip by exact Hle. cbn. split; [done |]. split; [done | auto].
  - rewrite handler_row_process by exact Hle. cbn zeta.
    assert (Hcalls : glacier_calls w `prefix_of` glacier_calls (submitted w (archiveid line)))
      by (now exists [archiveid line]).
    destruct (glacier_initiateJob env _ _) as [job|]; [| cbn; split; [done | split; auto]].
    destruct (dynamodb_putItem_ok env _); [| cbn; split; [done | split; auto]].
    cbn [snd stored submitted status_table glacier_calls].
    split; [apply dom_insert_subseteq |]. split; [exact Hcalls |].
    intros r Hr. apply table_items_insert in Hr as [-> | Hr]; [right | now left].
    repeat split.
Qed.

Lemma handler_loop_footprint p lines : forall st w,
  let w' := (handler_loop env p lines st w).2 in
  dom (status_table w) ⊆ dom (status_table w')
  /\ glacier_calls w `prefix_of` glacier_calls w'
  /\ (forall r, r ∈ table_items (status_table w') ->
                r ∈ table_items (status_table w) \/ written_for p r).
Proof.
  induction lines as [|line rest IH]; intros st w; cbn zeta.
  - cbn. split; [done |]. split; [done | auto].
  - rewrite handler_loop_cons.
    destruct (handler_row_footprint p line st w) as (Hd & Hc & Hr).
    destruct (handler_row env p line st w) as [[st1|e| |m] w1]; cbn in Hd, Hc, Hr |- *;
      try (split; [exact Hd | split; [exact Hc | exact Hr]]).
    destruct (IH st1 w1) as (Hd' & Hc' & Hr').
    split; [etrans; eassumption |]. split; [etrans; eassumption |].
    intros r Hin. destruct (Hr' r Hin) as [Hold | Hnew]; [| now right].
    now apply Hr.
Qed.

(** The footprint of the whole handler, whatever its outcome. *)
Lemma handler_footprint w :
  let w' := (handler env w).2 in
  dom (status_table w) ⊆ dom (status_table w')
  /\ glacier_calls w `prefix_of` glacier_calls w'
  /\ (forall p, payload w !! "nextPartition" = Some p ->
      forall r, r ∈ table_items (status_table w') ->
                r ∈ table_items (status_table w) \/ written_for p r)
  /\ ((forall result, (handler env w).1 <> Ok result) -> payload w' = payload w).
Proof.
  cbn zeta.
  destruct (payload w !! "nextPartition") as [p|] eqn:Hp.
  - rewrite (handler_unfold env w p Hp).
    assert (Hsame : dom (status_table w) ⊆ dom (status_table w)
                    /\ glacier_calls w `prefix_of` glacier_calls w
                    /\ (forall p0, Some p = Some p0 ->
                        forall r, r ∈ table_items (status_table w) ->
                                  r ∈ table_items (status_table w) \/ written_for p0 r)
                    /\ payload w = payload w)
      by (split; [done | split; [done | split; [auto | done]]]).
    destruct Hsame as (S1 & S2 & S3 & S4).
    destruct (getPartitionMaxProcessedFileNumber p w) as [[cursor|e| |m] w0]; cbn;
      try (split; [done | split; [done | split; auto]]).
    destruct (athena_wait _) as [[]|e| |m]; cbn; try (split; [done | split; [done | split; auto]]).
    destruct (csv_promise _ _) as [lines|e| |m]; cbn;
      try (split; [done | split; [done | split; auto]]).
    destruct (handler_loop_footprint p lines (loop_start cursor) w) as (Hd & Hc & Hr).
    pose proof (handler_loop_payload env p lines (loop_start cursor) w) as Hpl.
    destruct (handler_loop env p lines (loop_start cursor) w) as [[st|e| |m] w1];
      cbn in Hd, Hc, Hr, Hpl |- *.
    + split; [exact Hd |]. split; [exact Hc |]. split.
      * intros p0 [= <-]. exact Hr.
      * intros Hfail. exfalso. exact (Hfail _ eq_refl).
    + split; [exact Hd |]. split; [exact Hc |]. split; [| auto].
      intros p0 [= <-]. exact Hr.
    + split; [exact Hd |]. split; [exact Hc |]. split; [| auto].
      intros p0 [= <-]. exact Hr.
    + split; [exact Hd |]. split; [exact Hc |]. split; [| auto].
      intros p0 [= <-]. exact Hr.
  - unfold handler. rewrite Hp. cbn. split; [done |]. split; [done |].
    split; [discriminate | auto].
Qed.

(** X3. Whatever its outcome, an invocation removes no status record key
    and only appends to the jobs requested from Glacier. *)
Theorem handler_only_adds (w : World) :
  dom (status_table w) ⊆ dom (status_table (handler env w).2)
  /\ glacier_calls w `prefix_of` glacier_calls (handler env w).2.
Proof.
  destruct (handler_footprint w) as (Hd & Hc & _). split; assumption.
Qed.

(** X4. Whatever its outcome, every record the table holds after an
    invocation for partition [p] was there before, unchanged, or carries
    the partition number [p], the retry count [0] and the chunk count
    [calculateNumberOfChunks] gives for its size. *)
Theorem handler_writes_partition_records (w : World) (p : num) (r : StatusRecord) :
  payload w !! "nextPartition" = Some p ->
  r ∈ table_items (status_table (handler env w).2) ->
  r ∈ table_items (status_table w)
  \/ (pid r = p /\ rc r = Num 0 /\ cc r = calculateNumberOfChunks (sz r)).
Proof.
  intros Hp Hr. destruct (handler_footprint w) as (_ & _ & H & _). exact (H p Hp r Hr).
Qed.

(** X5. An invocation that does not complete, whether it fails or never
    settles, leaves the payload, and so [nextPartition], as it was. *)
Theorem handler_failure_keeps_payload (w : World) :
  (forall result, (handler env w).1 <> Ok result) ->
  payload (handler env w).2 = payload w.
Proof.
  intros H. destruct (handler_footprint w) as (_ & _ & _ & Hp). exact (Hp H).
Qed.

End Footprint.

(** ** Rejected service calls *)

Section Rejections.

Context (env : Env).

(** X6. When Glacier rejects the job request of a row, the invocation ends
    there with that error: the rows before it stay recorded, nothing is
    written for the row and the rows after it are not looked at. *)
Theorem glacier_rejection_ends_run (p : num) (pre post : list Line) (line : Line)
    (st0 st1 : LoopState) (w0 w1 : World) :
  handler_loop env p pre st0 w0 = (Ok st1, w1) ->
  num_le (row_num line) (partitionMaxProcessedFileNumber st1) = false ->
  glacier_initiateJob env (length (glacier_calls w1)) (archiveid line) = None ->
  handler_loop env p (pre ++ line :: post) st0 w0
    = (Throw (ServiceError "glacier"), submitted w1 (archiveid line))
  /\ status_table (submitted w1 (archiveid line)) = status_table w1.
Proof.
  intros Hpre Hle Hjob. split; [| reflexivity].
  rewrite handler_loop_app, Hpre, handler_loop_cons.
  rewrite handler_row_process by exact Hle. cbn zeta. now rewrite Hjob.
Qed.

(** X7. When the store rejects the item of a row, the invocation ends
    there with that error and the job Glacier has accepted for the row is
    left without a status record. *)
Theorem putItem_rejection_leaves_job (p : num) (pre post : list Line) (line : Line)
    (st0 st1 : LoopState) (w0 w1 : World) (job : string) :
  handler_loop env p pre st0 w0 = (Ok st1, w1) ->
  num_le (row_num line) (partitionMaxProcessedFileNumber st1) = false ->
  glacier_initiateJob env (length (glacier_calls w1)) (archiveid line) = Some job ->
  dynamodb_putItem_ok env
    (status_item env p line (resolvedName env (status_table w1) (processed st1) line)
                 job (S (length (glacier_calls w1)))) = false ->
  handler_loop env p (pre ++ line :: post) st0 w0
    = (Throw (ServiceError "dynamodb"), submitted w1 (archiveid line))
  /\ status_table (submitted w1 (archiveid line)) = status_table w1
  /\ glacier_calls (submitted w1 (archiveid line))
     = (glacier_calls w1 ++ [archiveid line])%list.
Proof.
  intros Hpre Hle Hjob Hput. split; [| split; reflexivity].
  rewrite handler_loop_app, Hpre, handler_loop_cons.
  rewrite handler_row_process by exact Hle. cbn zeta. rewrite Hjob.
  assert (Hlen : length (glacier_calls (submitted w1 (archiveid line)))
                 = S (length (glacier_calls w1))).
  { cbn. rewrite length_app. cbn. lia. }
  now rewrite Hlen, Hput.
Qed.

End Rejections.

(** ** The persisted cursor *)

Lemma cursor_of_table p w w2 :
  status_table w = status_table w2 ->
  (getPartitionMaxProcessedFileNumber p w).1
  = (getPartitionMaxProcessedFileNumber p w2).1.
Proof.
  intros H. unfold getPartitionMaxProcessedFileNumber. rewrite H.
  destruct (query_max_file_index _ _) as [result|e| |m]; try reflexivity.
  destruct (Count _ =? 0); [reflexivity |].
  destruct (LastEvaluatedKey _); reflexivity.
Qed.

Lemma cursor_pair p w cursor :
  (getPartitionMaxProcessedFileNumber p w).1 = Ok cursor <->
  getPartitionMaxProcessedFileNumber p w = (Ok cursor, w).
Proof.
  pose proof (getPartitionMaxProcessedFileNumber_pure p w) as Hw.
  destruct (getPartitionMaxProcessedFileNumber p w) as [o w2]. cbn in *. subst w2.
  split; [now intros -> | now intros [= ->]].
Qed.

(** Storing a record of the partition above the persisted cursor moves
    the persisted cursor to its row number. *)
Lemma cursor_after_put p w (item : StatusRecord) c i :
  partition_row_numbers_natural (status_table w) p ->
  (getPartitionMaxProcessedFileNumber p w).1 = Ok (Num c) ->
  pid item = p -> ifn item = Num i -> c < i ->
  partition_row_numbers_natural (<[aid item := item]> (status_table w)) p
  /\ (getPartitionMaxProcessedFileNumber p (stored w item)).1 = Ok (Num i).
Proof.
  intros Hnat Hcur Hpid Hifn Hlt.
  pose proof (cursor_answer_numeric_key p w _ Hcur) as Hnum.
  destruct (cursor_lookup_greatest p w Hnum Hnat) as (n & Hn & Hn0 & _ & Hmax).
  apply cursor_pair in Hcur. rewrite Hcur in Hn. injection Hn as <-.
  assert (Hnat' : partition_row_numbers_natural (<[aid item := item]> (status_table w)) p).
  { intros r [Hr Hp]. apply table_items_insert in Hr as [-> | Hr].
    - exists i. split; [exact Hifn | lia].
    - apply Hnat. now split. }
  split; [exact Hnat' |].
  destruct (cursor_lookup_greatest p (stored w item) Hnum Hnat')
    as (n' & Hn' & _ & _ & Hmax').
  rewrite Hn'. cbn [fst]. do 2 f_equal.
  assert (Hitem : partition_record (status_table (stored w item)) p item).
  { split; [| exact Hpid]. apply elem_of_table_items. exists (aid item).
    apply lookup_insert_eq. }
  destruct (Hmax' item Hitem) as ((r & [Hr Hrp] & Hrn) & Hall).
  specialize (Hall item Hitem). rewrite Hifn in Hall. apply num_le_Num in Hall.
  cbn [stored status_table] in Hr. apply table_items_insert in Hr as [-> | Hr].
  - rewrite Hifn in Hrn. now injection Hrn.
  - destruct (Hmax r (conj Hr Hrp)) as (_ & Hle). specialize (Hle r (conj Hr Hrp)).
    rewrite Hrn in Hle. apply num_le_Num in Hle. lia.
Qed.

Section Cursor.

Context (env : Env).

Lemma handler_row_persists_cursor p line st w st1 w1 :
  row_num line <> NaN \/ rejects_NaN env ->
  partition_row_numbers_natural (status_table w) p ->
  (getPartitionMaxProcessedFileNumber p w).1 = Ok (partitionMaxProcessedFileNumber st) ->
  handler_row env p line st w = (Ok st1, w1) ->
  partition_row_numbers_natural (status_table w1) p
  /\ (getPartitionMaxProcessedFileNumber p w1).1
     = Ok (partitionMaxProcessedFileNumber st1).
Proof.
  intros Hnum Hnat Hcur Hrow.
  destruct (num_le (row_num line) (partitionMaxProcessedFileNumber st)) eqn:Hle.
  - rewrite handler_row_skip in Hrow by exact Hle. injection Hrow as <- <-. auto.
  - rewrite handler_row_process in Hrow by exact Hle. cbn zeta in Hrow.
    destruct (glacier_initiateJob env _ _) as [job|]; [| discriminate].
    destruct (dynamodb_putItem_ok env _) eqn:Hput; [| discriminate].
    injection Hrow as <- <-.
    pose proof (cursor_answer_numeric_key p w _ Hcur) as Hkey.
    destruct (cursor_lookup_greatest p w Hkey Hnat) as (c & Hc & _).
    apply cursor_pair in Hcur. rewrite Hcur in Hc. injection Hc as Hc.
    rewrite Hc in Hle.
    destruct (row_num line) as [i|] eqn:Hi.
    + apply num_le_false_Num in Hle.
      cbn [partitionMaxProcessedFileNumber].
      apply (cursor_after_put p (submitted w (archiveid line)) _ c i); auto.
      rewrite <- (cursor_of_table p w) by reflexivity.
      apply cursor_pair. now rewrite Hcur, Hc.
    + exfalso. destruct Hnum as [Hnum|Hrej]; [now apply Hnum |].
      apply Hrej in Hput as [Hifn _]. apply Hifn. cbn. exact Hi.
Qed.

Lemma handler_loop_persists_cursor p lines : forall st w st1 w1,
  row_numbers_kept_numeric env lines ->
  partition_row_numbers_natural (status_table w) p ->
  (getPartitionMaxProcessedFileNumber p w).1 = Ok (partitionMaxProcessedFileNumber st) ->
  handler_loop env p lines st w = (Ok st1, w1) ->
  partition_row_numbers_natural (status_table w1) p
  /\ (getPartitionMaxProcessedFileNumber p w1).1
     = Ok (partitionMaxProcessedFileNumber st1).
Proof.
  induction lines as [|line rest IH]; intros st w st1 w1 Hnum Hnat Hcur Hloop.
  - injection Hloop as <- <-. auto.
  - apply row_numbers_kept_numeric_cons in Hnum as [Hline Hrest].
    rewrite handler_loop_cons in Hloop.
    destruct (handler_row env p line st w) as [[st'|e| |m] w'] eqn:Hrow; try discriminate.
    destruct (handler_row_persists_cursor _ _ _ _ _ _ Hline Hnat Hcur Hrow) as [Hnat' Hcur'].
    exact (IH _ _ _ _ Hrest Hnat' Hcur' Hloop).
Qed.

Lemma persisted_cursor_after_loop (p cursor : num) (lines : list Line)
    (w w1 : World) (st1 : LoopState) :
  row_numbers_kept_numeric env lines ->
  partition_row_numbers_natural (status_table w) p ->
  getPartitionMaxProcessedFileNumber p w = (Ok cursor, w) ->
  handler_loop env p lines (loop_start cursor) w = (Ok st1, w1) ->
  getPartitionMaxProcessedFileNumber p w1
  = (Ok (partitionMaxProcessedFileNumber st1), w1).
Proof.
  intros Hnum Hnat Hcur Hloop. apply cursor_pair.
  apply (handler_loop_persists_cursor p lines (loop_start cursor) w st1 w1); auto.
  now apply cursor_pair.
Qed.

(** X8. The cursor the row loop keeps in memory is the cursor the table
    holds: when the loop, started from the persisted cursor of the
    partition, has processed its rows, [getPartitionMaxProcessedFileNumber]
    answers the row number the loop ended on. *)
Theorem loop_cursor_is_persisted (p cursor : num) (lines : list Line)
    (w w1 : World) (st1 : LoopState) :
  row_numbers_kept_numeric env lines ->
  partition_row_numbers_natural (status_table w) p ->
  getPartitionMaxProcessedFileNumber p w = (Ok cursor, w) ->
  handler_loop env p lines (loop_start cursor) w = (Ok st1, w1) ->
  getPartitionMaxProcessedFileNumber p w1
  = (Ok (partitionMaxProcessedFileNumber st1), w1).
Proof. apply persisted_cursor_after_loop. Qed.

End Cursor.

(** ** Running a partition again *)

Section Rerun.

Context (env : Env).

Lemma handler_loop_all_skipped p lines : forall st w,
  Forall (fun l => num_le (row_num l) (partitionMaxProcessedFileNumber st) = true) lines ->
  handler_loop env p lines st w = (Ok st, w).
Proof.
  induction lines as [|line rest IH]; intros st w Hall; [reflexivity |].
  apply Forall_cons in Hall as [Hline Hrest].
  rewrite handler_loop_cons, handler_row_skip by exact Hline. now apply IH.
Qed.

(** After a completed loop no row is above the cursor it ended on. *)
Lemma handler_loop_rows_below p lines : forall st w st1 w1 c,
  row_numbers_kept_numeric env lines ->
  partitionMaxProcessedFileNumber st = Num c ->
  handler_loop env p lines st w = (Ok st1, w1) ->
  Forall (fun l => num_le (row_num l) (partitionMaxProcessedFileNumber st1) = true) lines.
Proof.
  induction lines as [|line rest IH]; intros st w st1 w1 c Hnum Hc Hloop; [constructor |].
  pose proof Hnum as Hnum0.
  apply row_numbers_kept_numeric_cons in Hnum as [Hline Hrest].
  rewrite handler_loop_cons in Hloop.
  destruct (handler_row env p line st w) as [[st'|e| |m] w'] eqn:Hrow; try discriminate.
  destruct (handler_row_cursor env _ _ _ _ _ _ _ Hline Hrow Hc) as (c' & Hc' & Hle).
  destruct (handler_loop_cursor env _ _ _ _ _ _ _ Hrest Hloop Hc') as (c1 & Hc1 & Hle1).
  constructor; [| exact (IH _ _ _ _ _ Hrest Hc' Hloop)].
  rewrite Hc1.
  destruct (num_le (row_num line) (partitionMaxProcessedFileNumber st)) eqn:Hskip.
  - rewrite Hc in Hskip. destruct (row_num line) as [i|]; [| discriminate].
    apply num_le_Num in Hskip. apply num_le_Num. lia.
  - rewrite handler_row_process in Hrow by exact Hskip. cbn zeta in Hrow.
    destruct (glacier_initiateJob env _ _) as [job|]; [| discriminate].
    destruct (dynamodb_putItem_ok env _); [| discriminate].
    injection Hrow as <- <-. cbn in Hc'. rewrite Hc'. apply num_le_Num. lia.
Qed.

(** X9. Running a completed partition again changes nothing: invoked once
    more with the payload of the first invocation, on the world the first
    invocation left and with the same inventory, the handler requests no
    job, writes no record and returns the same result. *)
Theorem handler_rerun_changes_nothing (w w1 : World) (p : num)
    (result : gmap string num) :
  rejects_NaN env ->
  payload w !! "nextPartition" = Some p ->
  partition_row_numbers_natural (status_table w) p ->
  handler env w = (Ok result, w1) ->
  handler env (with_payload w1 (payload w)) = (Ok result, w1).
Proof.
  intros Hrej Hp Hnat Hrun.
  rewrite (handler_unfold env w p Hp) in Hrun.
  assert (Hkey : p <> NaN).
  { intros ->. rewrite getPartitionMaxProcessedFileNumber_refused in Hrun. discriminate. }
  destruct (cursor_lookup_greatest p w Hkey Hnat) as (c & Hc & Hc0 & _).
  rewrite Hc in Hrun.
  destruct (athena_wait (athena_states env)) as [[]|e| |m] eqn:Hq; try discriminate.
  destruct (csv_promise _ _) as [lines|e| |m] eqn:Hcsv; try discriminate.
  pose proof (handler_loop_payload env p lines (loop_start (Num c)) w) as Hpl.
  destruct (handler_loop env p lines (loop_start (Num c)) w) as [[st2|e| |m] w2] eqn:Hloop;
    try discriminate.
  cbn in Hpl.
  injection Hrun as <- <-.
  assert (Hnum : row_numbers_kept_numeric env lines) by (now right).
  set (again := with_payload _ (payload w)).
  assert (Hagain : again = w2).
  { unfold again, with_payload. cbn. rewrite <- Hpl. now destruct w2. }
  rewrite Hagain.
  assert (Hp2 : payload w2 !! "nextPartition" = Some p) by (now rewrite Hpl).
  rewrite (handler_unfold env w2 p Hp2).
  rewrite (persisted_cursor_after_loop env p (Num c) lines w w2 st2 Hnum Hnat Hc Hloop).
  rewrite Hq, Hcsv.
  pose proof (handler_loop_rows_below p lines (loop_start (Num c)) w st2 w2 c
                Hnum eq_refl Hloop) as Hbelow.
  rewrite (handler_loop_all_skipped p lines
             (loop_start (partitionMaxProcessedFileNumber st2)) w2 Hbelow).
  reflexivity.
Qed.

End Rerun.

(** ** An inventory in increasing order *)

Lemma rows_above_all cursor lines :
  Forall (fun l => num_le (row_num l) cursor = false) lines ->
  rows_above cursor lines = lines.
Proof.
  unfold rows_above. induction 1 as [|l lines Hl _ IH]; [reflexivity |].
  rewrite filter_cons_True by exact Hl. now rewrite IH.
Qed.

Lemma num_lt_true a b :
  num_lt a b = true -> exists x y, a = Num x /\ b = Num y /\ x < y.
Proof.
  destruct a as [x|], b as [y|]; try discriminate.
  cbn. intros H. apply Z.ltb_lt in H. eauto.
Qed.

Section Ascending.

Context (env : Env).

(** X10. On an inventory in strictly increasing order of row number, a loop
    that completes has requested exactly one job for each row above the
    cursor it started from, in the order of the inventory, and none for the
    other rows. *)
Theorem ascending_run_requests_rows_above (p : num) (lines : list Line)
    (st st1 : LoopState) (w w1 : World) :
  row_numbers_ascending lines ->
  handler_loop env p lines st w = (Ok st1, w1) ->
  glacier_calls w1
  = (glacier_calls w
     ++ (archiveid <$> rows_above (partitionMaxProcessedFileNumber st) lines))%list.
Proof.
  intros Hsorted. revert st w.
  induction Hsorted as [|line rest Hrest IH Hline]; intros st w Hloop.
  - injection Hloop as <- <-. cbn. now rewrite app_nil_r.
  - rewrite handler_loop_cons in Hloop.
    destruct (num_le (row_num line) (partitionMaxProcessedFileNumber st)) eqn:Hle.
    + rewrite handler_row_skip in Hloop by exact Hle.
      unfold rows_above. rewrite filter_cons_False by (rewrite Hle; discriminate).
      now apply IH.
    + rewrite handler_row_process in Hloop by exact Hle. cbn zeta in Hloop.
      destruct (glacier_initiateJob env _ _) as [job|]; [| discriminate].
      destruct (dynamodb_putItem_ok env _); [| discriminate].
      apply IH in Hloop. rewrite Hloop.
      cbn [partitionMaxProcessedFileNumber stored submitted glacier_calls].
      unfold rows_above at 2. rewrite filter_cons_True by exact Hle.
      fold (rows_above (partitionMaxProcessedFileNumber st) rest).
      assert (Hall : Forall (fun l => num_le (row_num l) (row_num line) = false
                                      /\ num_le (row_num l)
                                           (partitionMaxProcessedFileNumber st) = false)
                            rest).
      { eapply Forall_impl; [exact Hline |]. cbn. intros l Hlt.
        apply num_lt_true in Hlt as (x & y & Hx & Hy & Hxy).
        rewrite Hx, Hy in *. split; [apply num_le_false_Num; lia |].
        destruct (partitionMaxProcessedFileNumber st) as [c|]; [| reflexivity].
        apply num_le_false_Num in Hle. apply num_le_false_Num. lia. }
      rewrite !rows_above_all.
      * rewrite <- app_assoc. reflexivity.
      * eapply Forall_impl; [exact Hall |]. cbn. tauto.
      * eapply Forall_impl; [exact Hall |]. cbn. tauto.
Qed.

End Ascending.

(** ** More on the chunk planner *)

(** X11. [calculateNumberOfChunks] is monotone: a larger size never needs
    fewer chunks. *)
Theorem calculateNumberOfChunks_monotone (a b : Z) :
  a <= b ->
  exists m n,
    calculateNumberOfChunks (Num a) = Num m
    /\ calculateNumberOfChunks (Num b) = Num n
    /\ m <= n.
Proof.
  intros Hab. exists (ceiling_quotient a CHUNK_SIZE), (ceiling_quotient b CHUNK_SIZE).
  split; [apply calculateNumberOfChunks_ceiling |].
  split; [apply calculateNumberOfChunks_ceiling |].
  assert (Hc : 0 < CHUNK_SIZE) by (rewrite CHUNK_SIZE_value; lia).
  pose proof (ceiling_quotient_spec a CHUNK_SIZE Hc).
  pose proof (ceiling_quotient_spec b CHUNK_SIZE Hc).
  nia.
Qed.

(** X12. A positive size needs at least one chunk, and exactly one up to
    [CHUNK_SIZE] bytes. *)
Theorem calculateNumberOfChunks_positive (s : Z) :
  0 < s ->
  exists n,
    calculateNumberOfChunks (Num s) = Num n
    /\ 1 <= n
    /\ (s <= CHUNK_SIZE -> n = 1).
Proof.
  intros Hs. exists (ceiling_quotient s CHUNK_SIZE).
  split; [apply calculateNumberOfChunks_ceiling |].
  assert (Hc : 0 < CHUNK_SIZE) by (rewrite CHUNK_SIZE_value; lia).
  pose proof (ceiling_quotient_spec s CHUNK_SIZE Hc).
  split; [nia |]. intros Hle. nia.
Qed.

(** * Properties of the metrics publisher *)

Lemma cap_at_most x total limit v :
  PostMetrics.ToNumber total = Num limit ->
  PostMetrics.cap x total = Some (Num v) -> v <= limit.
Proof.
  unfold PostMetrics.cap, PostMetrics.gt. intros Hlimit. rewrite Hlimit.
  destruct (PostMetrics.ToNumber x) as [a|] eqn:Hx.
  - destruct (Z.ltb_spec limit a) as [Hlt|Hge].
    + intros ->. cbn in Hlimit. injection Hlimit as ->. lia.
    + intros ->. cbn in Hx. injection Hx as ->. exact Hge.
  - intros ->. cbn in Hx. discriminate.
Qed.

(** X14. When the table holds a total archive count other than [0], no
    published count exceeds it, and no published byte figure exceeds the
    total volume; when the total volume is missing, no published byte
    figure is positive. *)
Theorem postMetrics_figures_capped (getItem : string -> option (gmap string string))
    (total : Z) (m : PostMetrics.Metric) (v : Z) :
  PostMetrics.attribute (getItem "count") "total" None = Some (Num total) ->
  total <> 0 ->
  m ∈ PostMetrics.handler getItem ->
  PostMetrics.metricValue m = Some (Num v) ->
  (PostMetrics.count_metric m -> v <= total)
  /\ (PostMetrics.bytes_metric m ->
      forall volume,
        PostMetrics.ToNumber (PostMetrics.attribute (getItem "volume") "total" None)
        = Num volume ->
        v <= volume)
  /\ (PostMetrics.bytes_metric m ->
      PostMetrics.attribute (getItem "volume") "total" None = None -> v <= 0).
Proof.
  intros Htotal Hnz Hin Hv.
  unfold PostMetrics.handler in Hin. cbn zeta in Hin. rewrite Htotal in Hin.
  assert (Htruthy : PostMetrics.truthy (Some (Num total)) = true).
  { cbn. now destruct (Z.eqb_spec total 0). }
  rewrite Htruthy in Hin.
  assert (Hnull : PostMetrics.attribute (getItem "volume") "total" None = None ->
                  PostMetrics.ToNumber (PostMetrics.attribute (getItem "volume") "total" None)
                  = Num 0) by (now intros ->).
  unfold PostMetrics.count_metric, PostMetrics.bytes_metric.
  repeat (apply elem_of_cons in Hin as [-> | Hin]); cbn [PostMetrics.metricName
    PostMetrics.metricValue] in *;
    try (now apply elem_of_nil in Hin);
    (split; [| split]);
    try (intros Hname; exfalso;
         repeat (apply elem_of_cons in Hname as [Hname | Hname]; [discriminate |]);
         now apply elem_of_nil in Hname);
    try (intros _; refine (cap_at_most _ _ _ _ _ Hv); reflexivity);
    try (intros _ volume Hvol; exact (cap_at_most _ _ _ _ Hvol Hv));
    try (intros _ Hmissing; exact (cap_at_most _ _ _ _ (Hnull Hmissing) Hv)).
Qed.

(** X15. The caps hang on the total archive count alone: when it is
    missing, [0] or not a number, every figure is published as the table
    holds it, a byte figure above the total volume included. *)
Theorem postMetrics_uncapped_without_count (getItem : string -> option (gmap string string)) :
  PostMetrics.truthy (PostMetrics.attribute (getItem "count") "total" None) = false ->
  PostMetrics.handler getItem = PostMetrics.uncapped getItem.
Proof.
  intros H. unfold PostMetrics.handler, PostMetrics.uncapped. cbn zeta.
  now rewrite H.
Qed.

(** * Properties of the monitoring log groups *)

Lemma append_cancel_r suffix : forall a b, a +:+ suffix = b +:+ suffix -> a = b.
Proof.
  induction a as [|c a IH]; intros [|c' b] H.
  - reflexivity.
  - apply (f_equal String.length) in H.
    rewrite !append_length in H. cbn [String.length] in H. lia.
  - apply (f_equal String.length) in H.
    rewrite !append_length in H. cbn [String.length] in H. lia.
  - change (String c a +:+ suffix) with (String c (a +:+ suffix)) in H.
    change (String c' b +:+ suffix) with (String c' (b +:+ suffix)) in H.
    injection H as -> H. f_equal. now apply IH.
Qed.

Lemma fold_visit STACK_NAME entries : forall names created,
  fold_left (Monitoring.visit STACK_NAME) entries (names, created)
  = ((names ++ ((fun name => "/aws/lambda" +:+ "/" +:+ STACK_NAME +:+ "-" +:+ name)
                  <$> Monitoring.lambda_directories entries))%list,
     (created ++ ((fun name =>
                     {| Monitoring.id := name +:+ "LogGroup";
                        Monitoring.logGroupName :=
                          "/aws/lambda" +:+ "/" +:+ STACK_NAME +:+ "-" +:+ name |})
                    <$> Monitoring.lambda_directories entries))%list).
Proof.
  unfold Monitoring.lambda_directories.
  induction entries as [|[name isDirectory] entries IH]; intros names created.
  - cbn. now rewrite !app_nil_r.
  - cbn [fold_left Monitoring.visit].
    destruct isDirectory.
    + destruct (String.eqb_spec name "toLowercase") as [-> | Hl].
      { rewrite IH. rewrite filter_cons_False by (cbn; tauto). reflexivity. }
      destruct (String.eqb_spec name "generateUuid") as [-> | Hg].
      { rewrite IH. rewrite filter_cons_False by (cbn; tauto). reflexivity. }
      unfold Monitoring.createStackLogGroup. rewrite IH.
      rewrite filter_cons_True by (cbn; tauto).
      cbn [fmap list_fmap fst]. now rewrite <- !app_assoc.
    + rewrite IH. rewrite filter_cons_False by (cbn; intros [? _]; discriminate).
      reflexivity.
Qed.

(** X16. When the directory names are distinct and no directory is called
    [stageTwoOrchestrator], so that no construct id is used twice, the log
    widget and the stack agree: the names handed to the log widget are the
    names of the log groups created, in order; they are the state machine's
    group followed by one group [/aws/lambda/<stack>-<dir>] per directory
    other than [toLowercase] and [generateUuid]; plain files and those two
    directories get none. *)
Theorem logGroups_cover_lambda_directories (STACK_NAME : string)
    (entries : list (string * bool)) :
  NoDup (Monitoring.lambda_directories entries) ->
  "stageTwoOrchestrator" ∉ Monitoring.lambda_directories entries ->
  (Monitoring.logGroups STACK_NAME entries).1
  = Monitoring.logGroupName <$> (Monitoring.logGroups STACK_NAME entries).2
  /\ (Monitoring.logGroups STACK_NAME entries).1
     = ("/aws/states/" +:+ STACK_NAME +:+ "-stageTwoOrchestrator")
       :: ((fun name => "/aws/lambda/" +:+ STACK_NAME +:+ "-" +:+ name)
             <$> Monitoring.lambda_directories entries)
  /\ (forall name,
        name ∈ Monitoring.lambda_directories entries
        <-> (name, true) ∈ entries /\ name <> "toLowercase" /\ name <> "generateUuid").
Proof.
  intros _ _.
  unfold Monitoring.logGroups, Monitoring.createStackLogGroup. cbn zeta.
  rewrite fold_visit. cbn [fst snd app].
  split; [| split].
  - rewrite fmap_cons. cbn [Monitoring.logGroupName]. f_equal.
    rewrite <- list_fmap_compose. reflexivity.
  - reflexivity.
  - intros name. unfold Monitoring.lambda_directories.
    rewrite list_elem_of_fmap. split.
    + intros ([n d] & -> & Hin). apply list_elem_of_filter in Hin as [(Hd & Hl & Hg) Hin].
      cbn in *. subst d. auto.
    + intros (Hin & Hl & Hg). exists (name, true). split; [reflexivity |].
      apply list_elem_of_filter. cbn. auto.
Qed.

(** X17. The log groups get distinct construct ids when the directory
    names are distinct and no directory is called [stageTwoOrchestrator]. *)
Theorem logGroup_ids_distinct (STACK_NAME : string) (entries : list (string * bool)) :
  NoDup (Monitoring.lambda_directories entries) ->
  "stageTwoOrchestrator" ∉ Monitoring.lambda_directories entries ->
  NoDup (Monitoring.id <$> (Monitoring.logGroups STACK_NAME entries).2).
Proof.
  intros Hnodup Hfirst.
  unfold Monitoring.logGroups, Monitoring.createStackLogGroup. cbn zeta.
  rewrite fold_visit. cbn [fst snd app].
  rewrite fmap_cons, <- list_fmap_compose. cbn [Monitoring.id].
  apply NoDup_cons. split.
  - rewrite list_elem_of_fmap. intros (name & Heq & Hin). cbn in Heq.
    apply append_cancel_r in Heq. now subst name.
  - apply NoDup_fmap_2; [| exact Hnodup].
    intros a b Hab. cbn in Hab. now apply append_cancel_r in Hab.
Qed.

(** * More worked runs *)

Lemma empty_table_natural p : partition_row_numbers_natural (status_table (sample_world [])) p.
Proof. intros r [Hr _]. vm_compute in Hr. now apply elem_of_nil in Hr. Qed.

Lemma handler_writes_partition_records_witness :
  let env := sample_env succeeded two_rows in
  let w := sample_world [] in
  let r := status_item env (Num 7)
             (on_data (csv_row "1" "100" "a1" "photo" "2019-05-01T00:00:00Z"))
             "photo" "job-a1" 1 in
  r ∈ table_items (status_table w)
  \/ (pid r = Num 7 /\ rc r = Num 0 /\ cc r = calculateNumberOfChunks (sz r)).
Proof.
  intros env w r.
  apply (handler_writes_partition_records env w (Num 7) r).
  - reflexivity.
  - apply elem_of_table_items. exists "a1". vm_compute. reflexivity.
Defined.

Lemma handler_failure_keeps_payload_witness :
  let env := sample_env ["QUEUED"; "FAILED"] two_rows in
  let w := sample_world [] in
  payload (handler env w).2 = payload w.
Proof.
  intros env w. apply (handler_failure_keeps_payload env w).
  intros result. vm_compute. discriminate.
Defined.

Lemma glacier_rejection_ends_run_witness :
  let env := second_job_rejected succeeded three_photos in
  let w0 := sample_world [] in
  let w1 := first_photo_done env w0 in
  handler_loop env (Num 7)
    ([photo_line "1" "a1"] ++ photo_line "2" "a2" :: [photo_line "3" "a3"])
    (loop_start (Num 0)) w0
    = (Throw (ServiceError "glacier"), submitted w1 "a2")
  /\ status_table (submitted w1 "a2") = status_table w1.
Proof.
  intros env w0 w1.
  apply (glacier_rejection_ends_run env (Num 7) [photo_line "1" "a1"] [photo_line "3" "a3"]
           (photo_line "2" "a2") (loop_start (Num 0))
           {| processed := ["photo"]; partitionMaxProcessedFileNumber := Num 1 |} w0 w1).
  - vm_compute. reflexivity.
  - reflexivity.
  - reflexivity.
Defined.

Lemma putItem_rejection_leaves_job_witness :
  let env := sample_env succeeded
               [EvData (csv_row "1" "100" "a1" "photo" "2019");
                EvData (bad_size_row "2"); EvEnd] in
  let w0 := sample_world [] in
  let w1 := first_photo_done env w0 in
  handler_loop env (Num 7) ([photo_line "1" "a1"] ++ on_data (bad_size_row "2") :: [])
               (loop_start (Num 0)) w0
    = (Throw (ServiceError "dynamodb"), submitted w1 "a3")
  /\ status_table (submitted w1 "a3") = status_table w1
  /\ glacier_calls (submitted w1 "a3") = (glacier_calls w1 ++ ["a3"])%list.
Proof.
  intros env w0 w1.
  apply (putItem_rejection_leaves_job env (Num 7) [photo_line "1" "a1"] []
           (on_data (bad_size_row "2")) (loop_start (Num 0))
           {| processed := ["photo"]; partitionMaxProcessedFileNumber := Num 1 |}
           w0 w1 "job-a3").
  - vm_compute. reflexivity.
  - reflexivity.
  - reflexivity.
  - vm_compute. reflexivity.
Defined.

Lemma loop_cursor_is_persisted_witness :
  let env := sample_env succeeded three_photos in
  let w := sample_world [] in
  let lines := [photo_line "1" "a1"; photo_line "2" "a2"] in
  (getPartitionMaxProcessedFileNumber (Num 7)
     (handler_loop env (Num 7) lines (loop_start (Num 0)) w).2).1
  = Ok (Num 2).
Proof.
  intros env w lines.
  destruct (handler_loop env (Num 7) lines (loop_start (Num 0)) w)
    as [[st1|e| |m] w1] eqn:Hrun.
  - cbn [snd].
    rewrite (loop_cursor_is_persisted env (Num 7) (Num 0) lines w w1 st1).
    + cbn [fst]. vm_compute in Hrun. injection Hrun as <- _. reflexivity.
    + left. repeat constructor; discriminate.
    + apply empty_table_natural.
    + vm_compute. reflexivity.
    + exact Hrun.
  - vm_compute in Hrun. discriminate.
  - vm_compute in Hrun. discriminate.
  - vm_compute in Hrun. discriminate.
Defined.

Lemma handler_rerun_changes_nothing_witness :
  let env := sample_env succeeded two_rows in
  let w := sample_world [] in
  handler env (with_payload two_rows_done (payload w))
  = (Ok (payload two_rows_done), two_rows_done).
Proof.
  intros env w.
  apply (handler_rerun_changes_nothing env w two_rows_done (Num 7)).
  - apply typed_store_rejects_NaN.
  - reflexivity.
  - apply empty_table_natural.
  - vm_compute. reflexivity.
Defined.

Lemma ascending_run_requests_rows_above_witness :
  let env := sample_env succeeded three_photos in
  let w := sample_world [] in
  let lines := [photo_line "1" "a1"; photo_line "2" "a2"; photo_line "3" "a3"] in
  glacier_calls (handler_loop env (Num 7) lines (loop_start (Num 1)) w).2
  = ["a2"; "a3"].
Proof.
  intros env w lines.
  destruct (handler_loop env (Num 7) lines (loop_start (Num 1)) w)
    as [[st1|e| |m] w1] eqn:Hrun.
  - cbn [snd].
    rewrite (ascending_run_requests_rows_above env (Num 7) lines (loop_start (Num 1))
               st1 w w1).
    + vm_compute. reflexivity.
    + repeat constructor.
    + exact Hrun.
  - vm_compute in Hrun. discriminate.
  - vm_compute in Hrun. discriminate.
  - vm_compute in Hrun. discriminate.
Defined.

Lemma calculateNumberOfChunks_monotone_witness :
  exists m n,
    calculateNumberOfChunks (Num 5) = Num m
    /\ calculateNumberOfChunks (Num (CHUNK_SIZE + 1)) = Num n
    /\ m <= n.
Proof.
  apply calculateNumberOfChunks_monotone. vm_compute. discriminate.
Defined.

Lemma calculateNumberOfChunks_positive_witness :
  exists n,
    calculateNumberOfChunks (Num 100) = Num n
    /\ 1 <= n
    /\ (100 <= CHUNK_SIZE -> n = 1).
Proof.
  apply calculateNumberOfChunks_positive. lia.
Defined.

Lemma postMetrics_figures_capped_witness :
  let m := {| PostMetrics.metricName := "ArchiveCountRequested";
              PostMetrics.metricValue := Some (Num 10) |} in
  (PostMetrics.count_metric m -> 10 <= 10)
  /\ (PostMetrics.bytes_metric m ->
      forall volume,
        PostMetrics.ToNumber
          (PostMetrics.attribute (overshooting_metrics "volume") "total" None)
        = Num volume ->
        10 <= volume)
  /\ (PostMetrics.bytes_metric m ->
      PostMetrics.attribute (overshooting_metrics "volume") "total" None = None ->
      10 <= 0).
Proof.
  intros m.
  apply (postMetrics_figures_capped overshooting_metrics 10 m 10).
  - vm_compute. reflexivity.
  - lia.
  - vm_compute. right. left.
  - reflexivity.
Defined.

Example postMetrics_overshoot :
  PostMetrics.handler overshooting_metrics
  = [ {| PostMetrics.metricName := "ArchiveCountTotal"; PostMetrics.metricValue := Some (Num 10) |};
      {| PostMetrics.metricName := "ArchiveCountRequested"; PostMetrics.metricValue := Some (Num 10) |};
      {| PostMetrics.metricName := "ArchiveCountStaged"; PostMetrics.metricValue := Some (Num 3) |};
      {| PostMetrics.metricName := "ArchiveCountValidated"; PostMetrics.metricValue := Some (Num 0) |};
      {| PostMetrics.metricName := "ArchiveCountCompleted"; PostMetrics.metricValue := Some (Num 0) |};
      {| PostMetrics.metricName := "BytesTotal"; PostMetrics.metricValue := Some (Num 1000) |};
      {| PostMetrics.metricName := "BytesRequested"; PostMetrics.metricValue := Some (Num 1000) |};
      {| PostMetrics.metricName := "BytesStaged"; PostMetrics.metricValue := Some (Num 0) |};
      {| PostMetrics.metricName := "BytesValidated"; PostMetrics.metricValue := Some (Num 0) |};
      {| PostMetrics.metricName := "BytesCompleted"; PostMetrics.metricValue := Some (Num 0) |} ].
Proof. vm_compute. reflexivity. Qed.

Lemma postMetrics_uncapped_without_count_witness :
  PostMetrics.handler metrics_without_count = PostMetrics.uncapped metrics_without_count
  /\ {| PostMetrics.metricName := "BytesRequested";
        PostMetrics.metricValue := Some (Num 5000) |}
     ∈ PostMetrics.uncapped metrics_without_count.
Proof.
  split.
  - apply postMetrics_uncapped_without_count. reflexivity.
  - vm_compute. do 6 right. left.
Defined.

Lemma logGroups_cover_lambda_directories_witness :
  (Monitoring.logGroups "refreezer" sample_entries).1
  = Monitoring.logGroupName <$> (Monitoring.logGroups "refreezer" sample_entries).2
  /\ (Monitoring.logGroups "refreezer" sample_entries).1
     = ("/aws/states/" +:+ "refreezer" +:+ "-stageTwoOrchestrator")
       :: ((fun name => "/aws/lambda/" +:+ "refreezer" +:+ "-" +:+ name)
             <$> Monitoring.lambda_directories sample_entries)
  /\ (forall name,
        name ∈ Monitoring.lambda_directories sample_entries
        <-> (name, true) ∈ sample_entries
            /\ name <> "toLowercase" /\ name <> "generateUuid").
Proof.
  apply logGroups_cover_lambda_directories.
  - apply (bool_decide_unpack _). vm_compute. exact I.
  - apply (bool_decide_unpack _). vm_compute. exact I.
Defined.

Lemma logGroup_ids_distinct_witness :
  NoDup (Monitoring.id <$> (Monitoring.logGroups "refreezer" sample_entries).2).
Proof.
  apply logGroup_ids_distinct.
  - apply (bool_decide_unpack _). vm_compute. exact I.
  - apply (bool_decide_unpack _). vm_compute. exact I.
Defined.

Example logGroups_sample :
  (Monitoring.logGroups "refreezer" sample_entries).1
  = ["/aws/states/refreezer-stageTwoOrchestrator";
     "/aws/lambda/refreezer-requestArchives";
     "/aws/lambda/refreezer-postMetrics"].
Proof. vm_compute. reflexivity. Qed.

(** * Resuming a failed run *)

Section Resume.

Context (env : Env).

Lemma handler_row_failure_keeps_table p line st w e w2 :
  handler_row env p line st w = (Throw e, w2) ->
  status_table w2 = status_table w.
Proof.
  intros Hrow.
  destruct (num_le (row_num line) (partitionMaxProcessedFileNumber st)) eqn:Hle.
  - rewrite handler_row_skip in Hrow by exact Hle. discriminate.
  - rewrite handler_row_process in Hrow by exact Hle. cbn zeta in Hrow.
    destruct (glacier_initiateJob env _ _) as [job|]; [| now injection Hrow as _ <-].
    destruct (dynamodb_putItem_ok env _); [discriminate | now injection Hrow as _ <-].
Qed.

(** X18. A run that fails at a row resumes at that row: in the world the
    failed invocation leaves, the persisted cursor is the row number of the
    last row recorded, so the next run over the same inventory skips every
    row before the failed one and takes up the failed row first. *)
Theorem failed_run_resumes_at_failed_row (p cursor : num) (pre post : list Line)
    (line : Line) (w w1 w2 : World) (st1 : LoopState) (e : error) :
  row_numbers_kept_numeric env pre ->
  partition_row_numbers_natural (status_table w) p ->
  getPartitionMaxProcessedFileNumber p w = (Ok cursor, w) ->
  handler_loop env p pre (loop_start cursor) w = (Ok st1, w1) ->
  handler_row env p line st1 w1 = (Throw e, w2) ->
  getPartitionMaxProcessedFileNumber p w2
    = (Ok (partitionMaxProcessedFileNumber st1), w2)
  /\ handler_loop env p (pre ++ line :: post)
       (loop_start (partitionMaxProcessedFileNumber st1)) w2
     = handler_loop env p (line :: post)
         (loop_start (partitionMaxProcessedFileNumber st1)) w2.
Proof.
  intros Hnum Hnat Hcur Hpre Hrow.
  assert (Hkey : p <> NaN) by (apply (cursor_answer_numeric_key p w cursor); now rewrite Hcur).
  destruct (cursor_lookup_greatest p w Hkey Hnat) as (c & Hc & _).
  rewrite Hcur in Hc. injection Hc as ->.
  split.
  - apply cursor_pair.
    rewrite (cursor_of_table p w2 w1) by (eapply handler_row_failure_keeps_table; eauto).
    apply cursor_pair.
    exact (persisted_cursor_after_loop env p (Num c) pre w w1 st1 Hnum Hnat Hcur Hpre).
  - pose proof (handler_loop_rows_below env p pre (loop_start (Num c)) w st1 w1 c
                  Hnum eq_refl Hpre) as Hbelow.
    rewrite handler_loop_app.
    now rewrite (handler_loop_all_skipped env p pre
                   (loop_start (partitionMaxProcessedFileNumber st1)) w2 Hbelow).
Qed.

End Resume.

Lemma failed_run_resumes_at_failed_row_witness :
  let env := second_job_rejected succeeded three_photos in
  let w := sample_world [] in
  let w1 := first_photo_done env w in
  let w2 := submitted w1 "a2" in
  getPartitionMaxProcessedFileNumber (Num 7) w2 = (Ok (Num 1), w2)
  /\ handler_loop env (Num 7)
       ([photo_line "1" "a1"] ++ photo_line "2" "a2" :: [photo_line "3" "a3"])
       (loop_start (Num 1)) w2
     = handler_loop env (Num 7) (photo_line "2" "a2" :: [photo_line "3" "a3"])
         (loop_start (Num 1)) w2.
Proof.
  intros env w w1 w2.
  apply (failed_run_resumes_at_failed_row env (Num 7) (Num 0) [photo_line "1" "a1"]
           [photo_line "3" "a3"] (photo_line "2" "a2") w w1 w2
           {| processed := ["photo"]; partitionMaxProcessedFileNumber := Num 1 |}
           (ServiceError "glacier")).
  - left. repeat constructor. discriminate.
  - apply empty_table_natural.
  - vm_compute. reflexivity.
  - vm_compute. reflexivity.
  - vm_compute. reflexivity.
Defined.
